(** * CosplayAI front end: generation lifecycle

    A shallow embedding of the React front end of CosplayAI
    (frontend/src/App.tsx and frontend/src/components/*.tsx).

    The components keep their state in [useState] cells and talk to the
    backend with [fetch]; timers come from [setInterval]/[setTimeout].
    JavaScript runs every handler and every continuation of an [await] to
    completion, so the embedding is a labelled transition system: one
    [Event] is one handler (or one continuation) followed by the React
    render it causes.  Work that is waiting for the outside world (a
    FileReader, a request in flight, a timer) is kept in the [World]. *)

From Stdlib Require Import ZArith QArith Qround List String Bool Lia Lqa.
Import ListNotations.

Local Open Scope string_scope.
Local Open Scope Z_scope.
Local Open Scope list_scope.

(** ** Small JavaScript helpers *)

(** [s.startsWith(p)] *)
Definition startsWith (s p : string) : bool := String.prefix p s.

(** Truthiness of a [string | null | undefined] value: only a non-empty
    string is truthy. *)
Definition truthy (s : option string) : bool :=
  match s with
  | Some EmptyString => false
  | Some _ => true
  | None => false
  end.

(** [a || b] on such values. *)
Definition or_else (a : option string) (b : string) : string :=
  match a with
  | Some EmptyString => b
  | Some s => s
  | None => b
  end.

(** [table[key] || fallback] for an object literal used as a table,
    given by its own keys in source order.  Keys inherited from
    [Object.prototype] ("constructor", "toString", ...) are not
    modelled. *)
Fixpoint lookup (key : string) (table : list (string * string))
  : option string :=
  match table with
  | [] => None
  | (k, v) :: rest => if String.eqb k key then Some v else lookup key rest
  end.

(** Removal of the n-th element of a list of pending work. *)
Fixpoint remove_nth {A : Type} (n : nat) (l : list A) : list A :=
  match l, n with
  | [], _ => []
  | _ :: t, O => t
  | h :: t, S k => h :: remove_nth k t
  end.

(** ** components/PhotoUpload.tsx *)

Module PhotoUpload.

(** The parts of a DOM [File] the component looks at; [dataURL] is what
    [FileReader.readAsDataURL] produces for it. *)
Record File := mkFile { type : string; size : Z; dataURL : string }.

(** The two checks of [handleFiles]. *)
Inductive ValidationError := InvalidType | TooLarge.

Definition message (e : ValidationError) : string :=
  match e with
  | InvalidType => "Please upload an image file (JPEG, PNG, WebP)"
  | TooLarge => "File size must be less than 10MB"
  end.

(** Lines 18-28 of [handleFiles]: the type is looked at first, the size
    second. *)
Definition validate (file : File) : option ValidationError :=
  if negb (startsWith (type file) "image/") then Some InvalidType
  else if size file >? 10 * 1024 * 1024 then Some TooLarge
  else None.

(** [useState] cells of the component ([dragActive] only drives a CSS
    class and is left out). *)
Record State := mkState { preview : option string; error : option string }.

Definition initial : State := {| preview := None; error := None |}.

End PhotoUpload.

(** ** components/CharacterSelection.tsx *)

Module CharacterSelection.

Record Character := mkCharacter
  { id : string; name : string; style : string; description : string }.

(** The three [useState] cells.  [characters] is declared
    [Character[]], but [setCharacters(data.characters)] stores whatever
    the parsed body holds under that key: [None] stands for a value that
    is not an array ([undefined] when the key is absent, or any other
    JSON value), on which [characters.map] throws. *)
Record State := mkState
  { characters : option (list Character);
    loading : bool;
    error : option string }.

Definition initial : State :=
  {| characters := Some []; loading := true; error := None |}.

(** What [fetch('http://localhost:8003/characters')] followed by
    [response.json()] can do.  [NetworkError] and [BadJson] are the
    cases in which the [try] block throws other than by its own
    [throw]; they carry the message of the thrown [Error].  An ok
    response with a body that parses either has an array under
    [characters] ([Ok]) or has not ([NoArray]): there is no check of the
    shape of the body. *)
Inductive Reply :=
| NetworkError (msg : string)
| NotOk
| BadJson (msg : string)
| NoArray
| Ok (characters : list Character).

(** The replies with which the [try] block throws and the [catch]
    branch runs. *)
Definition failed (r : Reply) : bool :=
  match r with Ok _ | NoArray => false | _ => true end.

(** The hardcoded list of the [catch] branch. *)
Definition fallback : list Character :=
  [ mkCharacter "sailor-moon" "Sailor Moon" "anime" "Classic anime magical girl";
    mkCharacter "wonder-woman" "Wonder Woman" "superhero" "Amazonian warrior princess";
    mkCharacter "dva" "D.Va" "gaming" "Professional gamer and mech pilot";
    mkCharacter "harley-quinn" "Harley Quinn" "comic" "Chaotic villain with jester costume";
    mkCharacter "zelda" "Princess Zelda" "fantasy" "Royal princess with magical powers";
    mkCharacter "power-girl" "Power Girl" "superhero" "Powerful superhero with classic costume";
    mkCharacter "2b" "2B" "gaming" "Android combat unit with elegant design";
    mkCharacter "mikasa" "Mikasa Ackerman" "anime" "Skilled soldier with military uniform";
    mkCharacter "catwoman" "Catwoman" "comic" "Feline-themed thief with sleek costume";
    mkCharacter "ahri" "Ahri" "gaming" "Nine-tailed fox spirit with magical attire" ].

(** [fetchCharacters], from the call to the end of [finally]. *)
Definition fetchCharacters (r : Reply) (s : State) : State :=
  match r with
  | Ok cs => {| characters := Some cs; loading := false; error := error s |}
  | NoArray => {| characters := None; loading := false; error := error s |}
  | NotOk =>
      {| characters := Some fallback; loading := false;
         error := Some "Failed to fetch characters" |}
  | NetworkError msg | BadJson msg =>
      {| characters := Some fallback; loading := false; error := Some msg |}
  end.

(** The style categories of the data model, as the keys of
    [getStyleColor]. *)
Definition styles : list string :=
  ["anime"; "superhero"; "gaming"; "comic"; "fantasy"].

(** [getStyleColor]. *)
Definition colors : list (string * string) :=
  [ ("anime", "bg-pink-100 text-pink-800");
    ("superhero", "bg-blue-100 text-blue-800");
    ("gaming", "bg-purple-100 text-purple-800");
    ("comic", "bg-red-100 text-red-800");
    ("fantasy", "bg-green-100 text-green-800") ].

Definition getStyleColor (style : string) : string :=
  or_else (lookup style colors) "bg-gray-100 text-gray-800".

(** [getCharacterImage]. *)
Definition images : list (string * string) :=
  [ ("sailor-moon", "🌙"); ("wonder-woman", "🦸‍♀️"); ("dva", "🎮");
    ("harley-quinn", "🎭"); ("zelda", "👑"); ("power-girl", "⚡");
    ("2b", "🤖"); ("mikasa", "⚔️"); ("catwoman", "🐱"); ("ahri", "🦊") ].

Definition getCharacterImage (characterId : string) : string :=
  or_else (lookup characterId images) "👤".

(** What the component returns (lines 86-203): the loading skeleton, or
    only the offline notice when [error] is truthy, or the grid of
    character buttons with, when [selectedCharacter] is truthy, the
    details of [characters.find(c => c.id === selectedCharacter)].  When
    [characters] is not an array, [characters.map] (line 125) throws
    while the grid is built and the component returns nothing. *)
Inductive View :=
| Skeleton
| OfflineNotice (text : string)
| Grid (buttons : list Character) (details : option (option Character))
| Throws.

Definition view (s : State) (selectedCharacter : string) : View :=
  if loading s then Skeleton
  else if truthy (error s) then
    OfflineNotice
      (String.append "Using offline character list. " (or_else (error s) ""))
  else
    match characters s with
    | Some cs =>
        Grid cs
          (if truthy (Some selectedCharacter)
           then Some (find (fun c => String.eqb (id c) selectedCharacter) cs)
           else None)
    | None => Throws
    end.

(** The ids a click can hand to [onCharacterSelect]: one per button,
    none while [disabled]. *)
Definition selectable (v : View) (disabled : bool) : list string :=
  match v with
  | Grid buttons _ => if disabled then [] else map id buttons
  | _ => []
  end.

End CharacterSelection.

(** ** App.tsx: the generation state *)

(** The string literal type of [GenerationState.status]:
    'idle' | 'uploading' | 'processing' | 'completed' | 'error'. *)
Inductive Status := Idle | Uploading | Processing | Completed | Error.

Definition Status_eqb (a b : Status) : bool :=
  match a, b with
  | Idle, Idle | Uploading, Uploading | Processing, Processing
  | Completed, Completed | Error, Error => true
  | _, _ => false
  end.

Module App.

Record GenerationState := mkGenerationState
  { id : option string;
    status : Status;
    progress : Z;
    result : option string;
    error : option string }.

Definition initial : GenerationState :=
  {| id := None; status := Idle; progress := 0;
     result := None; error := None |}.

(** The updaters handed to [setGenerationState]; [...prev] keeps every
    field that is not listed. *)

(** [prev => ({ ...prev, status: 'uploading' })] *)
Definition startUpload (prev : GenerationState) : GenerationState :=
  {| id := id prev; status := Uploading; progress := progress prev;
     result := result prev; error := error prev |}.

Definition handleGenerationStart (generationId : string)
    (prev : GenerationState) : GenerationState :=
  {| id := Some generationId; status := Processing; progress := 0;
     result := result prev; error := error prev |}.

Definition handleGenerationComplete (res : string)
    (prev : GenerationState) : GenerationState :=
  {| id := id prev; status := Completed; progress := 100;
     result := Some res; error := error prev |}.

Definition handleGenerationError (err : string)
    (prev : GenerationState) : GenerationState :=
  {| id := id prev; status := Error; progress := progress prev;
     result := result prev; error := Some err |}.

Definition resetGeneration : GenerationState := initial.

(** [FormData]: an ordered list of entries. *)
Inductive FormValue :=
| Blob (data filename : string)
| Text (s : string).

Definition FormData := list (string * FormValue).

(** [formData.get(key)]: the first entry under that key. *)
Fixpoint get (key : string) (f : FormData) : option FormValue :=
  match f with
  | [] => None
  | (k, v) :: rest => if String.eqb k key then Some v else get key rest
  end.

(** Lines 35-39 of [handleImageUpload]. *)
Definition formData (blob selectedCharacter : string) : FormData :=
  [ ("photo", Blob blob "photo.jpg");
    ("character", Text selectedCharacter);
    ("style", Text "anime");
    ("quality", Text "high") ].

End App.

(** The three messages [onError] is called with. *)
Definition msg_start_failed : string := "Failed to start generation".
Definition msg_generation_failed : string :=
  "Generation failed. Please try again.".
Definition msg_timed_out : string := "Generation timed out. Please try again.".
Definition placeholder_url : string :=
  "https://via.placeholder.com/512x512/3b82f6/ffffff?text=Cosplay+Image".

(** ** Timers *)

(** The three callbacks the code registers with [setInterval] and
    [setTimeout], with the variables their closures capture. *)
Inductive Callback :=
| SimulateProgress
| PollStatus (generationId : string)
| PollTimeout (pollInterval : nat).

(** An entry of the browser's timer table.  [period] is [Some p] for a
    [setInterval] and [None] for a [setTimeout]. *)
Record Timer := mkTimer
  { tid : nat; due : Z; period : option Z; callback : Callback }.

(** [clearInterval(h)] / [clearTimeout(h)]; clearing a handle that is gone
    does nothing. *)
Definition clearTimer (h : option nat) (ts : list Timer) : list Timer :=
  match h with
  | Some i => filter (fun t => negb (Nat.eqb (tid t) i)) ts
  | None => ts
  end.

Definition findTimer (i : nat) (ts : list Timer) : option Timer :=
  find (fun t => Nat.eqb (tid t) i) ts.

(** After an interval has fired it is due again one period later; a
    timeout leaves the table. *)
Definition reschedule (t : Timer) (ts : list Timer) : list Timer :=
  match period t with
  | Some p =>
      map (fun u => if Nat.eqb (tid u) (tid t)
                    then mkTimer (tid u) (due u + p) (period u) (callback u)
                    else u) ts
  | None => clearTimer (Some (tid t)) ts
  end.

(** ** components/GenerationProgress.tsx *)

Module GenerationProgress.

(** The [status] prop of the last render, the two [useState] cells and
    the timer handles held by the cleanup closures of the two effects.
    The percentage is a JavaScript number; it is kept as a rational, and
    [Math.random()] is a rational in [0, 1). *)
Record State := mkState
  { status : Status;
    currentProgress : Q;
    statusMessage : string;
    interval : option nat;
    pollInterval : option nat;
    timeout : option nat }.

Definition initial (st : Status) : State :=
  {| status := st; currentProgress := 0%Q; statusMessage := "";
     interval := None; pollInterval := None; timeout := None |}.

(** The updater of the simulated progress, given the [Math.random()]
    it draws.  The boolean tells whether it calls
    [clearInterval(interval)]. *)
Definition simulate (rnd prev : Q) : Q * bool :=
  if Qle_bool 90 prev then (prev, true)
  else ((prev + rnd * 10)%Q, false).

(** [getProgressColor]. *)
Definition getProgressColor (currentProgress : Q) : string :=
  if negb (Qle_bool 30 currentProgress) then "bg-blue-500"
  else if negb (Qle_bool 70 currentProgress) then "bg-yellow-500"
  else "bg-green-500".

(** [Math.round(currentProgress)], the number in the label of the bar:
    halves go up. *)
Definition round (currentProgress : Q) : Z :=
  Qfloor (currentProgress + (1 # 2)).

End GenerationProgress.

(** ** components/ResultDisplay.tsx *)

Module ResultDisplay.

(** [getCharacterName]. *)
Definition names : list (string * string) :=
  [ ("sailor-moon", "Sailor Moon"); ("wonder-woman", "Wonder Woman");
    ("dva", "D.Va"); ("harley-quinn", "Harley Quinn");
    ("zelda", "Princess Zelda"); ("power-girl", "Power Girl");
    ("2b", "2B"); ("mikasa", "Mikasa Ackerman"); ("catwoman", "Catwoman");
    ("ahri", "Ahri") ].

Definition getCharacterName (characterId : string) : string :=
  or_else (lookup characterId names) characterId.

(** The tab shown. *)
Inductive Tab := result | comparison.

(** The two [useState] cells. *)
Record State := mkState { activeTab : Tab; downloading : bool }.

Definition initial : State := {| activeTab := result; downloading := false |}.

(** The tab buttons on the page: "Result" always, "Comparison" only
    when [originalImage] is truthy (line 102). *)
Definition tabs (originalImage : option string) : list Tab :=
  result :: (if truthy originalImage then [comparison] else []).

End ResultDisplay.

(** ** The session: component state, pending work, timers and clock *)

(** Calls made to the backend at http://localhost:8003. *)
Inductive Request :=
| PostGenerate (body : App.FormData)
| GetGeneration (generationId : string).

Record World := mkWorld
  { (* App *)
    generationState : App.GenerationState;
    selectedCharacter : string;
    uploadedImage : option string;
    (* PhotoUpload *)
    photoUpload : PhotoUpload.State;
    (* GenerationProgress, when it is rendered *)
    generationProgress : option GenerationProgress.State;
    (* the browser *)
    timers : list Timer;
    nextTimer : nat;
    now : Z;
    (* FileReaders at work: the data URL they will deliver and the
       [selectedCharacter] captured by the [onImageUpload] closure *)
    readers : list (string * string);
    (* [handleImageUpload] calls waiting on [fetch(imageData)] *)
    uploads : list (string * string);
    (* POST /generate-cosplay requests in flight *)
    submits : list App.FormData;
    (* GET /generation/:id requests in flight, each with the handle of
       the interval whose callback issued it *)
    polls : list nat;
    (* every call made to the backend so far, oldest first *)
    requests : list Request }.

Definition initialWorld : World :=
  {| generationState := App.initial;
     selectedCharacter := "sailor-moon";
     uploadedImage := None;
     photoUpload := PhotoUpload.initial;
     generationProgress := None;
     timers := []; nextTimer := 0%nat; now := 0;
     readers := []; uploads := []; submits := []; polls := [];
     requests := [] |}.

(** Field updates. *)
Definition set_generationState (f : App.GenerationState -> App.GenerationState)
    (w : World) : World :=
  mkWorld (f (generationState w)) (selectedCharacter w) (uploadedImage w)
    (photoUpload w) (generationProgress w) (timers w) (nextTimer w) (now w)
    (readers w) (uploads w) (submits w) (polls w) (requests w).

Definition set_selectedCharacter (c : string) (w : World) : World :=
  mkWorld (generationState w) c (uploadedImage w)
    (photoUpload w) (generationProgress w) (timers w) (nextTimer w) (now w)
    (readers w) (uploads w) (submits w) (polls w) (requests w).

Definition set_uploadedImage (i : option string) (w : World) : World :=
  mkWorld (generationState w) (selectedCharacter w) i
    (photoUpload w) (generationProgress w) (timers w) (nextTimer w) (now w)
    (readers w) (uploads w) (submits w) (polls w) (requests w).

Definition set_photoUpload (p : PhotoUpload.State) (w : World) : World :=
  mkWorld (generationState w) (selectedCharacter w) (uploadedImage w)
    p (generationProgress w) (timers w) (nextTimer w) (now w)
    (readers w) (uploads w) (submits w) (polls w) (requests w).

Definition set_generationProgress (g : option GenerationProgress.State)
    (w : World) : World :=
  mkWorld (generationState w) (selectedCharacter w) (uploadedImage w)
    (photoUpload w) g (timers w) (nextTimer w) (now w)
    (readers w) (uploads w) (submits w) (polls w) (requests w).

Definition set_timers (ts : list Timer) (w : World) : World :=
  mkWorld (generationState w) (selectedCharacter w) (uploadedImage w)
    (photoUpload w) (generationProgress w) ts (nextTimer w) (now w)
    (readers w) (uploads w) (submits w) (polls w) (requests w).

Definition set_nextTimer (n : nat) (w : World) : World :=
  mkWorld (generationState w) (selectedCharacter w) (uploadedImage w)
    (photoUpload w) (generationProgress w) (timers w) n (now w)
    (readers w) (uploads w) (submits w) (polls w) (requests w).

Definition set_now (t : Z) (w : World) : World :=
  mkWorld (generationState w) (selectedCharacter w) (uploadedImage w)
    (photoUpload w) (generationProgress w) (timers w) (nextTimer w) t
    (readers w) (uploads w) (submits w) (polls w) (requests w).

Definition set_readers (l : list (string * string)) (w : World) : World :=
  mkWorld (generationState w) (selectedCharacter w) (uploadedImage w)
    (photoUpload w) (generationProgress w) (timers w) (nextTimer w) (now w)
    l (uploads w) (submits w) (polls w) (requests w).

Definition set_uploads (l : list (string * string)) (w : World) : World :=
  mkWorld (generationState w) (selectedCharacter w) (uploadedImage w)
    (photoUpload w) (generationProgress w) (timers w) (nextTimer w) (now w)
    (readers w) l (submits w) (polls w) (requests w).

Definition set_submits (l : list App.FormData) (w : World) : World :=
  mkWorld (generationState w) (selectedCharacter w) (uploadedImage w)
    (photoUpload w) (generationProgress w) (timers w) (nextTimer w) (now w)
    (readers w) (uploads w) l (polls w) (requests w).

Definition set_polls (l : list nat) (w : World) : World :=
  mkWorld (generationState w) (selectedCharacter w) (uploadedImage w)
    (photoUpload w) (generationProgress w) (timers w) (nextTimer w) (now w)
    (readers w) (uploads w) (submits w) l (requests w).

Definition set_requests (l : list Request) (w : World) : World :=
  mkWorld (generationState w) (selectedCharacter w) (uploadedImage w)
    (photoUpload w) (generationProgress w) (timers w) (nextTimer w) (now w)
    (readers w) (uploads w) (submits w) (polls w) l.

(** ** Rendering: which effects of GenerationProgress run *)

(** App.tsx line 168: GenerationProgress is rendered while the status is
    'uploading' or 'processing'. *)
Definition rendersProgress (st : Status) : bool :=
  match st with
  | Uploading | Processing => true
  | _ => false
  end.

(** Body of the first effect (dependencies [[status]]). *)
Definition progressEffect (st : Status) (t : Z)
    (g : GenerationProgress.State) (ts : list Timer) (n : nat)
  : GenerationProgress.State * list Timer * nat :=
  match st with
  | Uploading =>
      (GenerationProgress.mkState (GenerationProgress.status g) (10%Q)
         "Uploading your photo..." None
         (GenerationProgress.pollInterval g) (GenerationProgress.timeout g),
       ts, n)
  | Processing =>
      (GenerationProgress.mkState (GenerationProgress.status g) (20%Q)
         "Generating your cosplay image..." (Some n)
         (GenerationProgress.pollInterval g) (GenerationProgress.timeout g),
       ts ++ [mkTimer n (t + 1000) (Some 1000) SimulateProgress], S n)
  | _ => (g, ts, n)
  end.

(** Body of the second effect (dependencies [[generationId, status,
    onComplete, onError]]).  The guard is
    [generationId && status === 'processing']: the id must be a non-empty
    string. *)
Definition pollEffect (generationId : option string) (st : Status) (t : Z)
    (g : GenerationProgress.State) (ts : list Timer) (n : nat)
  : GenerationProgress.State * list Timer * nat :=
  match st, generationId with
  | Processing, Some (String c s) =>
      (GenerationProgress.mkState (GenerationProgress.status g)
         (GenerationProgress.currentProgress g)
         (GenerationProgress.statusMessage g)
         (GenerationProgress.interval g) (Some n) (Some (S n)),
       ts ++ [mkTimer n (t + 2000) (Some 2000) (PollStatus (String c s));
              mkTimer (S n) (t + 300000) None (PollTimeout n)],
       S (S n))
  | _, _ =>
      (GenerationProgress.mkState (GenerationProgress.status g)
         (GenerationProgress.currentProgress g)
         (GenerationProgress.statusMessage g)
         (GenerationProgress.interval g) None None,
       ts, n)
  end.

Definition withStatus (st : Status) (g : GenerationProgress.State)
  : GenerationProgress.State :=
  GenerationProgress.mkState st
    (GenerationProgress.currentProgress g) (GenerationProgress.statusMessage g)
    (GenerationProgress.interval g) (GenerationProgress.pollInterval g)
    (GenerationProgress.timeout g).

(** A render of App after one of its state cells changed.

    [onComplete] and [onError] are function expressions of the body of
    App, so every render of App hands new ones to GenerationProgress and
    the second effect re-runs each time: its cleanup clears both timers
    and its body, when the guard holds, starts new ones.  The first
    effect re-runs when [status] changed or the component was just
    mounted.  React runs the cleanups before the bodies.  When the
    component leaves the tree all cleanups run. *)
Definition render (w : World) : World :=
  let gs := generationState w in
  let st := App.status gs in
  if rendersProgress st then
    let g0 := match generationProgress w with
              | Some g => g
              | None => GenerationProgress.initial st
              end in
    let rerun := match generationProgress w with
                 | Some g => negb (Status_eqb (GenerationProgress.status g) st)
                 | None => true
                 end in
    let ts0 := if rerun
               then clearTimer (GenerationProgress.interval g0) (timers w)
               else timers w in
    let ts1 := clearTimer (GenerationProgress.timeout g0)
                 (clearTimer (GenerationProgress.pollInterval g0) ts0) in
    let '(g1, ts2, n2) :=
      if rerun then progressEffect st (now w) g0 ts1 (nextTimer w)
      else (g0, ts1, nextTimer w) in
    let '(g2, ts3, n3) := pollEffect (App.id gs) st (now w) g1 ts2 n2 in
    set_nextTimer n3
      (set_timers ts3 (set_generationProgress (Some (withStatus st g2)) w))
  else
    match generationProgress w with
    | Some g =>
        set_timers
          (clearTimer (GenerationProgress.timeout g)
             (clearTimer (GenerationProgress.pollInterval g)
                (clearTimer (GenerationProgress.interval g) (timers w))))
          (set_generationProgress None w)
    | None => w
    end.

(** ** Handlers *)

(** The [disabled] prop App gives to PhotoUpload and CharacterSelection
    (lines 132 and 143). *)
Definition disabled (w : World) : bool :=
  Status_eqb (App.status (generationState w)) Processing.

(** PhotoUpload.tsx, [handleFiles]. *)
Definition handleFiles (files : list PhotoUpload.File) (w : World) : World :=
  match files with
  | [] => w
  | file :: _ =>
      match PhotoUpload.validate file with
      | Some e =>
          set_photoUpload
            (PhotoUpload.mkState (PhotoUpload.preview (photoUpload w))
               (Some (PhotoUpload.message e))) w
      | None =>
          set_readers
            (readers w ++ [(PhotoUpload.dataURL file, selectedCharacter w)])
            (set_photoUpload
               (PhotoUpload.mkState (PhotoUpload.preview (photoUpload w)) None)
               w)
      end
  end.

(** PhotoUpload.tsx, [handleDrop] and [handleChange]. *)
Definition handleDrop (files : list PhotoUpload.File) (w : World) : World :=
  if disabled w then w else handleFiles files w.

(** App.tsx, [handleImageUpload] up to its first [await]; [character] is
    the [selectedCharacter] its closure holds. *)
Definition handleImageUpload (imageData character : string) (w : World)
  : World :=
  let w1 := set_uploadedImage (Some imageData) w in
  let w2 := set_generationState App.startUpload w1 in
  set_uploads (uploads w2 ++ [(imageData, character)]) w2.

(** PhotoUpload.tsx, [reader.onload]:
    [setPreview(result); onImageUpload(result)]. *)
Definition onload (result character : string) (w : World) : World :=
  handleImageUpload result character
    (set_photoUpload
       (PhotoUpload.mkState (Some result) (PhotoUpload.error (photoUpload w)))
       w).

(** The [catch] branch of [handleImageUpload]. *)
Definition startFailed (w : World) : World :=
  set_generationState (App.handleGenerationError msg_start_failed) w.

(** [handleImageUpload] after [fetch(imageData)] and [response.blob()]:
    the form is built and posted. *)
Definition postGenerate (imageData character : string) (w : World) : World :=
  let body := App.formData imageData character in
  set_submits (submits w ++ [body])
    (set_requests (requests w ++ [PostGenerate body]) w).

(** What the POST can come back with. *)
Inductive SubmitReply :=
| SubmitNetworkError
| SubmitNotOk
| SubmitBadJson
| SubmitOk (generation_id : string).

Definition handleSubmitReply (r : SubmitReply) (w : World) : World :=
  match r with
  | SubmitOk generation_id =>
      set_generationState (App.handleGenerationStart generation_id) w
  | _ => startFailed w
  end.

(** What a status query can come back with; [PollData] is a parsed body
    with its [status] and [result_url] fields. *)
Inductive PollReply :=
| PollNetworkError
| PollNotOk
| PollBadJson
| PollData (status : string) (result_url : option string).

Definition setCurrentProgress (p : Q) (w : World) : World :=
  match generationProgress w with
  | Some g =>
      set_generationProgress
        (Some (GenerationProgress.mkState (GenerationProgress.status g) p
                 (GenerationProgress.statusMessage g)
                 (GenerationProgress.interval g)
                 (GenerationProgress.pollInterval g)
                 (GenerationProgress.timeout g))) w
  | None => w
  end.

Definition setStatusMessage (m : string) (w : World) : World :=
  match generationProgress w with
  | Some g =>
      set_generationProgress
        (Some (GenerationProgress.mkState (GenerationProgress.status g)
                 (GenerationProgress.currentProgress g) m
                 (GenerationProgress.interval g)
                 (GenerationProgress.pollInterval g)
                 (GenerationProgress.timeout g))) w
  | None => w
  end.

(** The continuation of the interval callback of the second effect after
    its [await]s; [pollInterval] is the handle its closure holds.  The
    boolean tells whether App state was set, that is whether App renders
    again.  A thrown error is caught and only logged.  Nothing here looks
    at whether the effect that started the query has been cleaned up
    since.  The two local setters act on the component if it is on the
    page; the render that follows takes it off the page. *)
Definition handlePollReply (pollInterval : nat) (r : PollReply) (w : World)
  : World * bool :=
  match r with
  | PollData st result_url =>
      if String.eqb st "completed" then
        let w1 := setCurrentProgress (100%Q) w in
        let w2 := setStatusMessage "Generation complete!" w1 in
        let w3 := set_generationState
                    (App.handleGenerationComplete
                       (or_else result_url placeholder_url)) w2 in
        (set_timers (clearTimer (Some pollInterval) (timers w3)) w3, true)
      else if String.eqb st "failed" then
        let w1 := set_generationState
                    (App.handleGenerationError msg_generation_failed) w in
        (set_timers (clearTimer (Some pollInterval) (timers w1)) w1, true)
      else (w, false)
  | _ => (w, false)
  end.

(** [Math.random()] returns a number in [0, 1). *)
Definition random_ok (rnd : Q) : bool :=
  Qle_bool 0 rnd && negb (Qle_bool 1 rnd).

(** Running the callback of timer [self]. *)
Definition runCallback (self : nat) (cb : Callback) (rnd : Q) (w : World)
  : World :=
  match cb with
  | SimulateProgress =>
      match generationProgress w with
      | Some g =>
          let '(p, clear) :=
            GenerationProgress.simulate rnd
              (GenerationProgress.currentProgress g) in
          let w1 := setCurrentProgress p w in
          if clear then set_timers (clearTimer (Some self) (timers w1)) w1
          else w1
      | None => w
      end
  | PollStatus generationId =>
      set_polls (polls w ++ [self])
        (set_requests (requests w ++ [GetGeneration generationId]) w)
  | PollTimeout pollInterval =>
      let w1 := set_timers (clearTimer (Some pollInterval) (timers w)) w in
      render (set_generationState (App.handleGenerationError msg_timed_out) w1)
  end.

(** The "Try Again" button is shown in the 'error' view and ResultDisplay
    (with its reset button) when [status === 'completed' && result]. *)
Definition resetOffered (w : World) : bool :=
  match App.status (generationState w) with
  | Error => true
  | Completed => truthy (App.result (generationState w))
  | _ => false
  end.

Definition resetGeneration (w : World) : World :=
  set_uploadedImage None (set_generationState (fun _ => App.resetGeneration) w).

(** ** Events and the step function *)

Inductive Event :=
(* the user drops files on the upload area or picks them in the input *)
| SelectFiles (files : list PhotoUpload.File)
(* the n-th FileReader at work fires [onload] *)
| ReaderLoad (n : nat)
(* [fetch(imageData)] and [blob()] of the n-th waiting upload settle *)
| ImageFetched (n : nat) (ok : bool)
(* the n-th POST in flight settles *)
| SubmitResponse (n : nat) (r : SubmitReply)
(* timer [h] fires; [rnd] is what [Math.random()] returns to it *)
| TimerFires (h : nat) (rnd : Q)
(* the n-th status query in flight settles *)
| PollResponse (n : nat) (r : PollReply)
(* [dt] milliseconds pass *)
| Elapse (dt : Z)
(* the user clicks a character button *)
| SelectCharacter (c : string)
(* the user clicks a reset button *)
| Reset.

(** One event.  [None] means the event cannot happen in this state: there
    is no such pending work, the timer is not due, time would run past a
    due timer, or the button is not on the page.

    Timers are ideal: a timer fires at the instant it is due, and timers
    due at the same instant fire in any order.  An interval is put back
    one period later before its callback runs.  Pending work settles in
    any order and after any delay. *)
Definition step (w : World) (e : Event) : option World :=
  match e with
  | SelectFiles files => Some (handleDrop files w)
  | ReaderLoad n =>
      match nth_error (readers w) n with
      | Some (imageData, character) =>
          Some (render (onload imageData character
                          (set_readers (remove_nth n (readers w)) w)))
      | None => None
      end
  | ImageFetched n ok =>
      match nth_error (uploads w) n with
      | Some (imageData, character) =>
          let w1 := set_uploads (remove_nth n (uploads w)) w in
          if ok then Some (postGenerate imageData character w1)
          else Some (render (startFailed w1))
      | None => None
      end
  | SubmitResponse n r =>
      match nth_error (submits w) n with
      | Some _ =>
          Some (render (handleSubmitReply r
                          (set_submits (remove_nth n (submits w)) w)))
      | None => None
      end
  | TimerFires h rnd =>
      match findTimer h (timers w) with
      | Some t =>
          if (due t =? now w) && random_ok rnd then
            Some (runCallback h (callback t) rnd
                    (set_timers (reschedule t (timers w)) w))
          else None
      | None => None
      end
  | PollResponse n r =>
      match nth_error (polls w) n with
      | Some pollInterval =>
          let '(w1, changed) :=
            handlePollReply pollInterval r
              (set_polls (remove_nth n (polls w)) w) in
          Some (if changed then render w1 else w1)
      | None => None
      end
  | Elapse dt =>
      if (0 <? dt) && forallb (fun t => now w + dt <=? due t) (timers w)
      then Some (set_now (now w + dt) w)
      else None
  | SelectCharacter c =>
      if disabled w then Some w
      else if String.eqb c (selectedCharacter w) then Some w
      else Some (render (set_selectedCharacter c w))
  | Reset =>
      if resetOffered w then Some (render (resetGeneration w)) else None
  end.

(** A run of events, left to right. *)
Fixpoint run (w : World) (es : list Event) : option World :=
  match es with
  | [] => Some w
  | e :: rest =>
      match step w e with
      | Some w' => run w' rest
      | None => None
      end
  end.

(** The states the session can be in. *)
Inductive reachable : World -> Prop :=
| reach_init : reachable initialWorld
| reach_step : forall w e w',
    reachable w -> step w e = Some w' -> reachable w'.

(** ** Which update of the generation state an event can cause *)

(** Every event leaves [generationState] alone or applies exactly one of
    the updaters of App.tsx to it. *)
Inductive transition (gs : App.GenerationState)
  : Event -> App.GenerationState -> Prop :=
| tr_same : forall e, transition gs e gs
| tr_upload : forall n, transition gs (ReaderLoad n) (App.startUpload gs)
| tr_start : forall n generation_id,
    transition gs (SubmitResponse n (SubmitOk generation_id))
      (App.handleGenerationStart generation_id gs)
| tr_complete : forall n st url,
    transition gs (PollResponse n (PollData st url))
      (App.handleGenerationComplete (or_else url placeholder_url) gs)
| tr_error : forall e m,
    In m [msg_start_failed; msg_generation_failed; msg_timed_out] ->
    (forall n generation_id, e <> SubmitResponse n (SubmitOk generation_id)) ->
    e <> Reset ->
    transition gs e (App.handleGenerationError m gs)
| tr_reset :
    App.status gs = Completed \/ App.status gs = Error ->
    transition gs Reset App.initial.

(** ** Well-formed views

    The timer table only holds timers that GenerationProgress still has a
    handle for. *)

Definition timer_ok (g : GenerationProgress.State) (n : nat) (t : Timer)
  : Prop :=
  (tid t < n)%nat /\
  ((GenerationProgress.interval g = Some (tid t) /\
    callback t = SimulateProgress /\ period t = Some 1000)
   \/ (GenerationProgress.pollInterval g = Some (tid t) /\
       (exists generationId, callback t = PollStatus generationId) /\
       period t = Some 2000)
   \/ (GenerationProgress.timeout g = Some (tid t) /\
       (exists p, callback t = PollTimeout p /\
                  GenerationProgress.pollInterval g = Some p) /\
       period t = None)).

(** The two handles of the polling effect are created together, after
    the handle of the progress animation. *)
Definition handles_ok (g : GenerationProgress.State) (n : nat) : Prop :=
  (forall h, GenerationProgress.interval g = Some h -> (h < n)%nat) /\
  match GenerationProgress.pollInterval g, GenerationProgress.timeout g with
  | Some p, Some t =>
      t = S p /\ (t < n)%nat /\
      (forall h, GenerationProgress.interval g = Some h -> (h < p)%nat)
  | None, None => True
  | _, _ => False
  end.

Definition view_ok (w : World) : Prop :=
  match generationProgress w with
  | None => timers w = []
  | Some g =>
      handles_ok g (nextTimer w) /\
      Forall (timer_ok g (nextTimer w)) (timers w) /\
      (GenerationProgress.status g = Uploading ->
       GenerationProgress.interval g = None /\
       GenerationProgress.pollInterval g = None) /\
      (GenerationProgress.status g = Uploading \/
       GenerationProgress.status g = Processing)
  end.

(** GenerationProgress is on the page exactly while App's status says
    so, and has seen that status. *)
Definition in_sync (w : World) : Prop :=
  match generationProgress w with
  | None => rendersProgress (App.status (generationState w)) = false
  | Some g => GenerationProgress.status g = App.status (generationState w)
  end.

(** The displayed progress: 10 while uploading, from 20 up to (not
    reaching) 100 while processing. *)
Definition progress_ok (w : World) : Prop :=
  match generationProgress w with
  | None => True
  | Some g =>
      (GenerationProgress.status g = Uploading ->
       GenerationProgress.currentProgress g = 10%Q) /\
      (GenerationProgress.status g = Processing ->
       (20 <= GenerationProgress.currentProgress g)%Q /\
       (GenerationProgress.currentProgress g < 100)%Q)
  end.

Definition inv (w : World) : Prop := view_ok w /\ in_sync w /\ progress_ok w.

(** A table that only holds the timer of the progress animation. *)
Definition sim_timer (g : GenerationProgress.State) (n : nat) (t : Timer)
  : Prop :=
  (tid t < n)%nat /\ GenerationProgress.interval g = Some (tid t) /\
  callback t = SimulateProgress /\ period t = Some 1000.

Definition sim_only (g : GenerationProgress.State) (ts : list Timer)
    (n : nat) : Prop :=
  (forall h, GenerationProgress.interval g = Some h -> (h < n)%nat) /\
  Forall (sim_timer g n) ts.

(** ** Polling *)

(** A reply that carries one of the two statuses the poller stops on. *)
Definition terminal_reply (r : PollReply) : bool :=
  match r with
  | PollData st _ => String.eqb st "completed" || String.eqb st "failed"
  | _ => false
  end.


(** The events of a session in which nothing happens but time, timers
    and status replies that are not terminal. *)
Definition quiet (e : Event) : bool :=
  match e with
  | Elapse _ => true
  | TimerFires _ _ => true
  | PollResponse _ r => negb (terminal_reply r)
  | _ => false
  end.

(** The poller is running and will time out at [T]: its interval and its
    timeout are in the timer table, the timeout due at [T]. *)
Definition polling (T : Z) (w : World) : Prop :=
  App.status (generationState w) = Processing /\
  now w <= T /\
  exists g p d generationId,
    generationProgress w = Some g /\
    GenerationProgress.pollInterval g = Some p /\
    In (mkTimer p d (Some 2000) (PollStatus generationId)) (timers w) /\
    In (mkTimer (S p) T None (PollTimeout p)) (timers w) /\
    (forall t q, In t (timers w) -> callback t = PollTimeout q -> due t = T).

(** The poller has reported the timeout, not before [T]. *)
Definition timed_out (T : Z) (w : World) : Prop :=
  App.status (generationState w) = Error /\
  App.error (generationState w) = Some msg_timed_out /\
  T <= now w /\
  timers w = [].

(** What a step can add to the log of backend calls. *)
Definition posted (r : Request) : Prop :=
  match r with
  | PostGenerate body =>
      exists imageData character, body = App.formData imageData character
  | GetGeneration _ => True
  end.

(** ** Sample inputs and sessions *)

Definition jpeg5 : PhotoUpload.File :=
  PhotoUpload.mkFile "image/jpeg" (5 * 1024 * 1024)
    "data:image/jpeg;base64,/9j/4AAQSkZJRg==".

Definition png12 : PhotoUpload.File :=
  PhotoUpload.mkFile "image/png" (12 * 1024 * 1024)
    "data:image/png;base64,iVBORw0KGgo=".

Definition pdf12 : PhotoUpload.File :=
  PhotoUpload.mkFile "application/pdf" (12 * 1024 * 1024)
    "data:application/pdf;base64,JVBERi0xLjQ=".

(** A photo is chosen, read and posted; the POST is in flight. *)
Definition submitted : list Event :=
  [SelectFiles [jpeg5]; ReaderLoad 0; ImageFetched 0 true].

(** ... and the provider accepts it as job "abc123". *)
Definition accepted : list Event :=
  submitted ++ [SubmitResponse 0 (SubmitOk "abc123")].

(** Two seconds of a running generation: the progress animation ticks
    twice, the poller asks once and gets [reply]. *)
Definition two_seconds (reply : PollReply) : list Event :=
  [Elapse 1000; TimerFires 0 0; Elapse 1000; TimerFires 0 0;
   TimerFires 1 0; PollResponse 0 reply].

(** 300 seconds in which the provider only ever says "processing"; the
    last event is the timeout firing. *)
Definition never_terminal : list Event :=
  List.concat (repeat (two_seconds (PollData "processing" None)) 149)
  ++ [Elapse 1000; TimerFires 0 0; Elapse 1000; TimerFires 2 0].

(** The provider reports failure at the first status query. *)
Definition provider_fails : list Event :=
  two_seconds (PollData "failed" None).

(** The provider reports completion at the first status query. *)
Definition provider_completes : list Event :=
  two_seconds (PollData "completed" (Some "img://abc123")).

(** The world of a session, [initialWorld] if the session cannot
    happen. *)
Definition after (es : list Event) : World :=
  match run initialWorld es with
  | Some w => w
  | None => initialWorld
  end.

(** A first submission is refused by the provider; the user picks
    another character and submits again. *)
Definition two_submissions : list Event :=
  submitted ++
  [SubmitResponse 0 SubmitNotOk; SelectCharacter "zelda";
   SelectFiles [jpeg5]; ReaderLoad 0; ImageFetched 0 true].

(** A generation completes; without a reset the user uploads again, the
    upload fails to start, and the user uploads once more. *)
Definition resubmitted_after_failure : list Event :=
  accepted ++ provider_completes ++
  [SelectFiles [jpeg5]; ReaderLoad 0; ImageFetched 0 false;
   SelectFiles [jpeg5]; ReaderLoad 0].

(** A generation completes; without a reset the user uploads again and
    that upload is posted. *)
Definition resubmitted_after_completion : list Event :=
  accepted ++ provider_completes ++
  [SelectFiles [jpeg5]; ReaderLoad 0; ImageFetched 0 true].

(** Two files are chosen one after the other.  The first is accepted by
    the provider and polled; the status query is still in flight when
    the second FileReader delivers and a new upload begins. *)
Definition cancelled_with_query_in_flight : list Event :=
  [SelectFiles [jpeg5]; SelectFiles [jpeg5]; ReaderLoad 0;
   ImageFetched 0 true; SubmitResponse 0 (SubmitOk "abc123");
   Elapse 1000; TimerFires 0 0; Elapse 1000; TimerFires 0 0;
   TimerFires 1 0; ReaderLoad 0].

(** Four seconds into a generation, the first status query still
    unanswered and the second one due. *)
Definition query_in_flight : list Event :=
  accepted ++
  [Elapse 1000; TimerFires 0 0; Elapse 1000; TimerFires 0 0; TimerFires 1 0;
   Elapse 1000; TimerFires 0 0; Elapse 1000; TimerFires 0 0].

(** ** App.tsx: the right column *)

(** The four blocks of the right column (lines 150-209), with the props
    or text they are given. *)
Inductive Panel :=
| ReadyPanel
| ProgressPanel (status : Status) (progress : Z) (generationId : option string)
| ResultPanel (result : string) (originalImage : option string)
    (character : string)
| ErrorPanel (message : string).

(** Each block is guarded by its own condition; the column holds the
    blocks whose condition is truthy, in source order. *)
Definition rightColumn (w : World) : list Panel :=
  let gs := generationState w in
  (if Status_eqb (App.status gs) Idle then [ReadyPanel] else [])
  ++ (if Status_eqb (App.status gs) Uploading
         || Status_eqb (App.status gs) Processing
      then [ProgressPanel (App.status gs) (App.progress gs) (App.id gs)]
      else [])
  ++ (if Status_eqb (App.status gs) Completed && truthy (App.result gs)
      then [ResultPanel (or_else (App.result gs) "") (uploadedImage w)
              (selectedCharacter w)]
      else [])
  ++ (if Status_eqb (App.status gs) Error
      then [ErrorPanel
              (or_else (App.error gs) "An unexpected error occurred")]
      else []).

(** ** More about timers and sessions *)

Definition is_poll (t : Timer) : bool :=
  match callback t with PollStatus _ => true | _ => false end.

Definition is_timeout (t : Timer) : bool :=
  match callback t with PollTimeout _ => true | _ => false end.

(** The timers of one poller started at [t0] for [generationId] with
    handle [p]. *)
Definition pollerTimers (p : nat) (t0 : Z) (generationId : string)
  : list Timer :=
  [mkTimer p (t0 + 2000) (Some 2000) (PollStatus generationId);
   mkTimer (S p) (t0 + 300000) None (PollTimeout p)].

(** How many pollers the guard of the polling effect allows: one while
    processing a job with a non-empty id, none otherwise. *)
Definition pollers (gs : App.GenerationState) : nat :=
  match App.status gs, App.id gs with
  | Processing, Some (String _ _) => 1
  | _, _ => 0
  end.

(** The status queries of the table are for the job the generation state
    holds, and the table holds exactly as many poll intervals and
    timeouts as the guard allows. *)
Definition one_poller (w : World) : Prop :=
  (forall t generationId,
     In t (timers w) -> callback t = PollStatus generationId ->
     App.id (generationState w) = Some generationId) /\
  List.length (filter is_poll (timers w)) = pollers (generationState w) /\
  List.length (filter is_timeout (timers w)) = pollers (generationState w).

(** The files a session offers to [handleFiles]: the first of each
    selection. *)
Fixpoint offered (es : list Event) : list PhotoUpload.File :=
  match es with
  | [] => []
  | SelectFiles (file :: _) :: rest => file :: offered rest
  | _ :: rest => offered rest
  end.

(** Every image on its way to the backend, and every image posted, is in
    [S]. *)
Definition images_from (S : string -> Prop) (w : World) : Prop :=
  (forall i c, In (i, c) (readers w) -> S i) /\
  (forall i c, In (i, c) (uploads w) -> S i) /\
  (forall body, In (PostGenerate body) (requests w) ->
     exists i c, body = App.formData i c /\ S i).

(** The image read from an offered file that passed validation. *)
Definition validated (es : list Event) (i : string) : Prop :=
  exists file, In file (offered es) /\ PhotoUpload.validate file = None /\
               PhotoUpload.dataURL file = i.

(** The provider accepts the job but gives an empty id; then 400 seconds
    pass, the animation ticking every second. *)
Definition accepted_without_id : list Event :=
  submitted ++ [SubmitResponse 0 (SubmitOk "")].

Definition four_hundred_seconds : list Event :=
  List.concat (repeat [Elapse 1000; TimerFires 0 0] 400).

(** The events in which [handleImageUpload] reaches its [catch] branch:
    [fetch(imageData)] or [blob()] throws, the POST throws, its response
    is not ok, or its body does not parse. *)
Definition start_failure (e : Event) : bool :=
  match e with
  | ImageFetched _ ok => negb ok
  | SubmitResponse _ (SubmitOk _) => false
  | SubmitResponse _ _ => true
  | _ => false
  end.

(** The colour of the progress bar on the page, if there is one. *)
Definition barColour (w : World) : option string :=
  option_map
    (fun g =>
       GenerationProgress.getProgressColor
         (GenerationProgress.currentProgress g))
    (generationProgress w).

(** Two seconds of a running generation in which [Math.random()] gives
    0.9 at both ticks of the animation; the status query sent at the
    end is left unanswered. *)
Definition two_fast_ticks : list Event :=
  [Elapse 1000; TimerFires 0 (9 # 10);
   Elapse 1000; TimerFires 0 (9 # 10); TimerFires 1 0].

(** Six seconds into such a generation, with the tick of that second
    due: five ticks have taken the progress from 20 to 65. *)
Definition six_seconds_in : list Event :=
  accepted ++ two_fast_ticks ++ two_fast_ticks ++
  [Elapse 1000; TimerFires 0 (9 # 10); Elapse 1000].

(** One second later, with the next tick due: the progress is 74. *)
Definition seven_seconds_in : list Event :=
  six_seconds_in ++ [TimerFires 0 (9 # 10); TimerFires 1 0; Elapse 1000].

(** Two files are chosen, read and posted one after the other; the
    provider accepts the first as job "abc123" while the second POST is
    still in flight. *)
Definition running_with_post_in_flight : list Event :=
  [SelectFiles [jpeg5]; SelectFiles [jpeg5]; ReaderLoad 0; ReaderLoad 0;
   ImageFetched 0 true; ImageFetched 0 true;
   SubmitResponse 0 (SubmitOk "abc123")].

(** ** Commits and effects apart *)

(** React commits a render before it runs the effects of that render,
    and what the effects set is shown by a later commit.  [render] gives
    the page once the effects have run and their updates are committed.
    The definitions below give what is on the page in between. *)

(** What the callback of timer [self] sets, without the render of App
    that follows when it set App state; the boolean tells whether it
    did. *)
Definition callbackUpdates (self : nat) (cb : Callback) (rnd : Q) (w : World)
  : World * bool :=
  match cb with
  | PollTimeout pollInterval =>
      (set_generationState (App.handleGenerationError msg_timed_out)
         (set_timers (clearTimer (Some pollInterval) (timers w)) w),
       true)
  | _ => (runCallback self cb rnd w, false)
  end.

(** What the handler of an event sets, and whether App renders after
    it: [step] without its renders. *)
Definition updates (w : World) (e : Event) : option (World * bool) :=
  match e with
  | SelectFiles files => Some (handleDrop files w, false)
  | ReaderLoad n =>
      match nth_error (readers w) n with
      | Some (imageData, character) =>
          Some (onload imageData character
                  (set_readers (remove_nth n (readers w)) w), true)
      | None => None
      end
  | ImageFetched n ok =>
      match nth_error (uploads w) n with
      | Some (imageData, character) =>
          let w1 := set_uploads (remove_nth n (uploads w)) w in
          if ok then Some (postGenerate imageData character w1, false)
          else Some (startFailed w1, true)
      | None => None
      end
  | SubmitResponse n r =>
      match nth_error (submits w) n with
      | Some _ =>
          Some (handleSubmitReply r
                  (set_submits (remove_nth n (submits w)) w), true)
      | None => None
      end
  | TimerFires h rnd =>
      match findTimer h (timers w) with
      | Some t =>
          if (due t =? now w) && random_ok rnd then
            Some (callbackUpdates h (callback t) rnd
                    (set_timers (reschedule t (timers w)) w))
          else None
      | None => None
      end
  | PollResponse n r =>
      match nth_error (polls w) n with
      | Some pollInterval =>
          Some (handlePollReply pollInterval r
                  (set_polls (remove_nth n (polls w)) w))
      | None => None
      end
  | Elapse dt =>
      if (0 <? dt) && forallb (fun t => now w + dt <=? due t) (timers w)
      then Some (set_now (now w + dt) w, false)
      else None
  | SelectCharacter c =>
      if disabled w then Some (w, false)
      else if String.eqb c (selectedCharacter w) then Some (w, false)
      else Some (set_selectedCharacter c w, true)
  | Reset =>
      if resetOffered w then Some (resetGeneration w, true) else None
  end.

(** What GenerationProgress shows when App renders in state [w], at the
    commit and before its effects run: nothing when App does not render
    it; otherwise its two cells as they are, [useState(0)] and
    [useState('')] when it is newly mounted, with the [status] prop of
    this render. *)
Definition committed (w : World) : option GenerationProgress.State :=
  let st := App.status (generationState w) in
  if rendersProgress st then
    Some (withStatus st
            match generationProgress w with
            | Some g => g
            | None => GenerationProgress.initial st
            end)
  else None.

(** * Properties *)

(** ** Tactics and frame lemmas *)

Ltac break_match :=
  match goal with
  | |- context [match ?x with _ => _ end] => destruct x eqn:?
  | |- context [if ?x then _ else _] => destruct x eqn:?
  end.

Ltac splits := repeat match goal with |- _ /\ _ => split end.

Ltac break_match_in H :=
  match type of H with
  | context [match ?x with _ => _ end] => destruct x eqn:?
  end.

(** A render only touches GenerationProgress and the timer table. *)
Lemma render_frame w :
  generationState (render w) = generationState w /\
  selectedCharacter (render w) = selectedCharacter w /\
  uploadedImage (render w) = uploadedImage w /\
  photoUpload (render w) = photoUpload w /\
  now (render w) = now w /\
  readers (render w) = readers w /\
  uploads (render w) = uploads w /\
  submits (render w) = submits w /\
  polls (render w) = polls w /\
  requests (render w) = requests w.
Proof.
  unfold render, progressEffect, pollEffect.
  repeat break_match; simpl; repeat split; reflexivity.
Qed.

Lemma generationState_render w :
  generationState (render w) = generationState w.
Proof. apply render_frame. Qed.

(** What a step does to the generation state is one of the updaters of
    App.tsx, or nothing. *)
Lemma step_transition w e w' :
  step w e = Some w' ->
  transition (generationState w) e (generationState w').
Proof.
  destruct e; simpl; intros H.
  - injection H as <-. unfold handleDrop, handleFiles.
    repeat break_match; simpl; constructor.
  - destruct (nth_error (readers w) n) as [[i c]|]; [|discriminate].
    injection H as <-. rewrite generationState_render. simpl. constructor.
  - destruct (nth_error (uploads w) n) as [[i c]|]; [|discriminate].
    destruct ok; injection H as <-.
    + simpl. constructor.
    + rewrite generationState_render. simpl.
      apply tr_error; simpl; auto; discriminate.
  - destruct (nth_error (submits w) n); [|discriminate].
    injection H as <-. rewrite generationState_render.
    destruct r; simpl;
      try (apply tr_error; simpl; auto; try discriminate; intros ? ? [=]).
    constructor.
  - destruct (findTimer h (timers w)) as [t|]; [|discriminate].
    destruct (_ && _); [|discriminate]. injection H as <-.
    unfold runCallback. destruct (callback t); simpl.
    + unfold setCurrentProgress; simpl.
      repeat (break_match; simpl); constructor.
    + constructor.
    + rewrite generationState_render. simpl.
      apply tr_error; simpl; auto; discriminate.
  - destruct (nth_error (polls w) n); [|discriminate].
    unfold handlePollReply in H.
    destruct r; simpl in H; try (injection H as <-; constructor).
    destruct (String.eqb status "completed"); simpl in H.
    + injection H as <-. rewrite generationState_render.
      unfold setStatusMessage, setCurrentProgress. simpl.
      repeat (break_match; simpl); constructor.
    + destruct (String.eqb status "failed"); simpl in H; injection H as <-.
      * rewrite generationState_render. simpl.
        apply tr_error; simpl; auto; discriminate.
      * constructor.
  - destruct (_ && _); [|discriminate]. injection H as <-. constructor.
  - destruct (disabled w); [injection H as <-; constructor|].
    destruct (String.eqb c _); injection H as <-;
      try rewrite generationState_render; constructor.
  - unfold resetOffered in H.
    destruct (App.status (generationState w)) eqn:E; try discriminate.
    + destruct (truthy _); [|discriminate]. injection H as <-.
      rewrite generationState_render. simpl. apply tr_reset; auto.
    + injection H as <-. rewrite generationState_render. simpl.
      apply tr_reset; auto.
Qed.

(** ** Timer tables *)

Lemma In_clearTimer h ts t :
  In t (clearTimer h ts) <-> In t ts /\ h <> Some (tid t).
Proof.
  destruct h as [i|]; simpl.
  - rewrite filter_In, negb_true_iff, Nat.eqb_neq.
    split; intros [H1 H2]; split; auto; congruence.
  - split; [intros; split; [assumption|discriminate] | tauto].
Qed.

(** Clearing the three handles of a well-formed view empties the
    table. *)
Lemma clear_all g n ts :
  Forall (timer_ok g n) ts ->
  clearTimer (GenerationProgress.timeout g)
    (clearTimer (GenerationProgress.pollInterval g)
       (clearTimer (GenerationProgress.interval g) ts)) = [].
Proof.
  intros H.
  destruct (clearTimer _ _) as [|t l] eqn:E; [reflexivity|exfalso].
  assert (I : In t (t :: l)) by (left; reflexivity).
  rewrite <- E in I. rewrite !In_clearTimer in I.
  destruct I as [[[I N1] N2] N3].
  rewrite Forall_forall in H.
  destruct (H _ I) as [_ [[? _]|[[? _]|[? _]]]]; congruence.
Qed.

(** Clearing the two handles of the polling effect leaves the timer of
    the progress animation. *)
Lemma clear_polls g n ts t :
  Forall (timer_ok g n) ts ->
  In t (clearTimer (GenerationProgress.timeout g)
          (clearTimer (GenerationProgress.pollInterval g) ts)) ->
  (tid t < n)%nat /\ GenerationProgress.interval g = Some (tid t) /\
  callback t = SimulateProgress /\ period t = Some 1000.
Proof.
  intros H I. rewrite !In_clearTimer in I. destruct I as [[I N1] N2].
  rewrite Forall_forall in H.
  destruct (H _ I) as [L [?|[[? _]|[? _]]]]; try congruence. tauto.
Qed.

Lemma Status_eqb_eq a b : Status_eqb a b = true <-> a = b.
Proof. destruct a, b; simpl; split; congruence. Qed.

(** ** The effects of GenerationProgress keep the view well-formed *)

Lemma clear_polls_sim_only g n ts :
  handles_ok g n -> Forall (timer_ok g n) ts ->
  sim_only g
    (clearTimer (GenerationProgress.timeout g)
       (clearTimer (GenerationProgress.pollInterval g) ts)) n.
Proof.
  intros [Hi _] F. split; [exact Hi|].
  apply Forall_forall. intros t I. exact (clear_polls _ _ _ _ F I).
Qed.

Lemma progressEffect_ok st t g n :
  st = Uploading \/ st = Processing ->
  match progressEffect st t g [] n with
  | (g', ts', n') =>
      sim_only g' ts' n' /\
      GenerationProgress.status g' = GenerationProgress.status g /\
      (st = Uploading ->
       GenerationProgress.interval g' = None /\
       GenerationProgress.currentProgress g' = 10%Q) /\
      (st = Processing -> GenerationProgress.currentProgress g' = 20%Q)
  end.
Proof.
  intros [-> | ->]; simpl; unfold sim_only, sim_timer; simpl.
  - repeat split; auto; discriminate.
  - repeat split; try discriminate.
    + intros h [= <-]. lia.
    + repeat constructor; simpl; lia.
Qed.

Lemma pollEffect_ok generationId st t g ts n :
  sim_only g ts n ->
  match pollEffect generationId st t g ts n with
  | (g', ts', n') =>
      handles_ok g' n' /\ Forall (timer_ok g' n') ts' /\
      GenerationProgress.status g' = GenerationProgress.status g /\
      GenerationProgress.interval g' = GenerationProgress.interval g /\
      GenerationProgress.currentProgress g' =
        GenerationProgress.currentProgress g /\
      (st <> Processing -> GenerationProgress.pollInterval g' = None)
  end.
Proof.
  intros [Hi F].
  assert (F0 : forall g' n',
             GenerationProgress.interval g' = GenerationProgress.interval g ->
             (n <= n')%nat ->
                 Forall (timer_ok g' n') ts).
  { intros g' n' Eg Le. rewrite Forall_forall in *. intros u I.
    destruct (F u I) as (L & Ei & Ec & Ep).
    split; [lia|]. left. rewrite Eg. auto. }
  unfold pollEffect.
  destruct st; try (simpl; unfold handles_ok; simpl; repeat split; auto; fail).
  destruct generationId as [[|c s]|];
    try (simpl; unfold handles_ok; simpl; repeat split; auto; congruence).
  unfold handles_ok; simpl. repeat split; auto; try congruence.
  - intros h Eh. apply Hi in Eh. lia.
  - apply Forall_app. split; [apply F0; simpl; auto|].
    apply Forall_cons; [|apply Forall_cons; [|apply Forall_nil]];
      (split; simpl; [lia|]).
    + right. left. eauto.
    + right. right. eauto.
Qed.

Lemma rendersProgress_true st :
  rendersProgress st = true -> st = Uploading \/ st = Processing.
Proof. destruct st; simpl; auto; discriminate. Qed.

(** The three parts of the invariant once both effects have run. *)
Lemma view_after_effects w st g2 ts3 n3 :
  st = App.status (generationState w) ->
  st = Uploading \/ st = Processing ->
  handles_ok g2 n3 -> Forall (timer_ok g2 n3) ts3 ->
  (st = Uploading ->
   GenerationProgress.interval g2 = None /\
   GenerationProgress.pollInterval g2 = None) ->
  (st = Uploading -> GenerationProgress.currentProgress g2 = 10%Q) ->
  (st = Processing ->
   (20 <= GenerationProgress.currentProgress g2)%Q /\
   (GenerationProgress.currentProgress g2 < 100)%Q) ->
  let w' := set_nextTimer n3
              (set_timers ts3
                 (set_generationProgress (Some (withStatus st g2)) w)) in
  view_ok w' /\ in_sync w' /\ progress_ok w'.
Proof.
  intros Est S Hh F U P1 P2. unfold view_ok, in_sync, progress_ok; simpl.
  split; [split; [exact Hh|split; [exact F|split; [exact U|exact S]]]|].
  split; [exact Est|]. split; [exact P1|exact P2].
Qed.

(** A render re-establishes the invariant from a well-formed view: the
    displayed progress either was fine or is of no concern because the
    component leaves the page. *)
Lemma render_inv w :
  view_ok w ->
  progress_ok w \/ rendersProgress (App.status (generationState w)) = false ->
  view_ok (render w) /\ in_sync (render w) /\ progress_ok (render w).
Proof.
  unfold render.
  destruct (rendersProgress (App.status (generationState w))) eqn:R.
  2:{ unfold view_ok, in_sync, progress_ok.
      intros V _. destruct (generationProgress w) as [g|] eqn:G; simpl.
      - destruct V as (_ & F & _). rewrite (clear_all _ _ _ F). auto.
      - rewrite G. auto. }
  intros V [P|]; [|discriminate].
  apply rendersProgress_true in R.
  set (st := App.status (generationState w)) in *.
  unfold view_ok, progress_ok in V, P.
  destruct (generationProgress w) as [g|] eqn:G.
  - destruct V as (Hh & F & U & S).
    destruct (Status_eqb (GenerationProgress.status g) st) eqn:E;
      simpl negb; cbv iota.
    + apply Status_eqb_eq in E.
      pose proof (pollEffect_ok (App.id (generationState w)) st (now w) _ _ _
                    (clear_polls_sim_only _ _ _ Hh F)) as PE.
      destruct (pollEffect _ _ _ _ _ _) as [[g2 ts3] n3].
      destruct PE as (Hh2 & F2 & Es & Ei & Ec & Ep).
      apply view_after_effects; auto.
      * intros Eu. rewrite Ei. split; [apply U; congruence|].
        apply Ep. rewrite Eu. discriminate.
      * rewrite Ec. intros Eu. apply P. congruence.
      * rewrite Ec. intros Eu. apply P. congruence.
    + rewrite (clear_all _ _ _ F).
      pose proof (progressEffect_ok st (now w) g (nextTimer w) R) as PR.
      destruct (progressEffect _ _ _ _ _) as [[g1 ts2] n2].
      destruct PR as (So & Es1 & Pu & Pp).
      pose proof (pollEffect_ok (App.id (generationState w)) st (now w)
                    _ _ _ So) as PE.
      destruct (pollEffect _ _ _ _ _ _) as [[g2 ts3] n3].
      destruct PE as (Hh2 & F2 & Es & Ei & Ec & Ep).
      apply view_after_effects; auto.
      * intros Eu. rewrite Ei. split; [apply Pu; auto|].
        apply Ep. rewrite Eu. discriminate.
      * rewrite Ec. intros Eu. apply Pu. auto.
      * rewrite Ec. intros Eu. rewrite (Pp Eu).
        split; [apply Qle_refl|reflexivity].
  - simpl. rewrite V. simpl.
    pose proof (progressEffect_ok st (now w) (GenerationProgress.initial st)
                  (nextTimer w) R) as PR.
    destruct (progressEffect _ _ _ _ _) as [[g1 ts2] n2].
    destruct PR as (So & Es1 & Pu & Pp).
    pose proof (pollEffect_ok (App.id (generationState w)) st (now w)
                  _ _ _ So) as PE.
    destruct (pollEffect _ _ _ _ _ _) as [[g2 ts3] n3].
    destruct PE as (Hh2 & F2 & Es & Ei & Ec & Ep).
    apply view_after_effects; auto.
    * intros Eu. rewrite Ei. split; [apply Pu; auto|].
      apply Ep. rewrite Eu. discriminate.
    * rewrite Ec. intros Eu. apply Pu. auto.
    * rewrite Ec. intros Eu. rewrite (Pp Eu).
      split; [apply Qle_refl|reflexivity].
Qed.

(** ** Handlers keep the view well-formed *)

Lemma view_ok_incl w ts' :
  view_ok w -> (forall t, In t ts' -> In t (timers w)) ->
  view_ok (set_timers ts' w).
Proof.
  unfold view_ok; simpl. destruct (generationProgress w) as [g|].
  - intros (Hh & F & U) I. split; [exact Hh|]. split; [|exact U].
    rewrite Forall_forall in *. auto.
  - intros E I. rewrite E in I. destruct ts' as [|t l]; [reflexivity|].
    destruct (I t). now left.
Qed.

Lemma view_ok_clear w h :
  view_ok w -> view_ok (set_timers (clearTimer h (timers w)) w).
Proof.
  intros V. apply view_ok_incl; [exact V|].
  intros t I. apply In_clearTimer in I. tauto.
Qed.

Lemma view_ok_reschedule w t :
  view_ok w -> view_ok (set_timers (reschedule t (timers w)) w).
Proof.
  unfold reschedule. destruct (period t) as [p|]; [|apply view_ok_clear].
  unfold view_ok; simpl. destruct (generationProgress w) as [g|].
  - intros (Hh & F & U). split; [exact Hh|]. split; [|exact U].
    rewrite Forall_forall in *. intros u I. apply in_map_iff in I.
    destruct I as (v & <- & I). specialize (F v I).
    destruct (Nat.eqb (tid v) (tid t)); [|exact F]. exact F.
  - intros ->. reflexivity.
Qed.

Lemma view_ok_setCurrentProgress w p :
  view_ok w -> view_ok (setCurrentProgress p w).
Proof.
  unfold view_ok, setCurrentProgress.
  destruct (generationProgress w) as [g|] eqn:G; simpl; [|now rewrite G].
  auto.
Qed.

Lemma view_ok_setStatusMessage w m :
  view_ok w -> view_ok (setStatusMessage m w).
Proof.
  unfold view_ok, setStatusMessage.
  destruct (generationProgress w) as [g|] eqn:G; simpl; [|now rewrite G].
  auto.
Qed.

Lemma findTimer_In h ts t : findTimer h ts = Some t -> In t ts /\ tid t = h.
Proof.
  unfold findTimer. intros H. apply find_some in H.
  destruct H as [I E]. apply Nat.eqb_eq in E. auto.
Qed.

(** ** The simulated progress *)

Lemma random_ok_bounds rnd :
  random_ok rnd = true -> (0 <= rnd)%Q /\ (rnd < 1)%Q.
Proof.
  unfold random_ok. rewrite andb_true_iff, negb_true_iff. intros [A B].
  apply Qle_bool_iff in A. split; [exact A|].
  apply Qnot_le_lt. intros C. apply Qle_bool_iff in C. congruence.
Qed.

(** One tick of the animation does not lower the percentage and keeps
    it below 100. *)
Lemma simulate_bounds rnd prev :
  random_ok rnd = true -> (20 <= prev)%Q -> (prev < 100)%Q ->
  let p := fst (GenerationProgress.simulate rnd prev) in
  (prev <= p)%Q /\ (20 <= p)%Q /\ (p < 100)%Q.
Proof.
  intros R L U. apply random_ok_bounds in R. destruct R as [R0 R1].
  unfold GenerationProgress.simulate. destruct (Qle_bool 90 prev) eqn:E; simpl.
  - repeat split; auto. apply Qle_refl.
  - assert (prev < 90)%Q.
    { apply Qnot_le_lt. intros C. apply Qle_bool_iff in C. congruence. }
    repeat split; lra.
Qed.

(** ** The invariant holds in every reachable state *)

Lemma inv_render w :
  view_ok w ->
  progress_ok w \/ rendersProgress (App.status (generationState w)) = false ->
  inv (render w).
Proof. apply render_inv. Qed.

Lemma inv_initial : inv initialWorld.
Proof. repeat split. Qed.

Lemma step_inv w e w' : inv w -> step w e = Some w' -> inv w'.
Proof.
  intros (V & S & P) H. destruct e; simpl in H.
  - injection H as <-. unfold handleDrop, handleFiles.
    repeat break_match; repeat split; assumption.
  - destruct (nth_error (readers w) n) as [[i c]|]; [|discriminate].
    injection H as <-. apply inv_render; [exact V|left; exact P].
  - destruct (nth_error (uploads w) n) as [[i c]|]; [|discriminate].
    destruct ok; injection H as <-.
    + repeat split; assumption.
    + apply inv_render; [exact V|right; reflexivity].
  - destruct (nth_error (submits w) n); [|discriminate].
    injection H as <-. apply inv_render; [|left]; destruct r; assumption.
  - destruct (findTimer h (timers w)) as [t|] eqn:Ft; [|discriminate].
    destruct (due t =? now w); [|discriminate]. simpl in H.
    destruct (random_ok rnd) eqn:Rn; [|discriminate].
    injection H as <-. apply findTimer_In in Ft. destruct Ft as [It Et].
    pose proof (view_ok_reschedule w t V) as V1.
    unfold runCallback. destruct (callback t) eqn:Cb.
    + (* simulated progress *)
      simpl generationProgress.
      destruct (generationProgress w) as [g|] eqn:G;
        [|unfold view_ok in V; rewrite G in V; rewrite V in It; destruct It].
      assert (Pr : GenerationProgress.status g = Processing).
      { unfold view_ok in V. rewrite G in V.
        destruct V as (_ & F & U & [Su|Sp]); [|exact Sp].
        rewrite Forall_forall in F.
        destruct (F t It)
          as [_ [[Ei _]|[(_ & [x Ex] & _)|(_ & [x [Ex _]] & _)]]];
          try congruence.
        destruct (U Su). congruence. }
      unfold progress_ok in P. rewrite G in P. destruct P as [_ P].
      destruct (P Pr) as [P1 P2].
      pose proof (simulate_bounds rnd _ Rn P1 P2) as B.
      destruct (GenerationProgress.simulate rnd
                  (GenerationProgress.currentProgress g)) as [p clear].
      simpl in B.
      assert (I1 : inv (setCurrentProgress p
                          (set_timers (reschedule t (timers w)) w))).
      { split; [apply view_ok_setCurrentProgress; exact V1|].
        unfold in_sync, progress_ok, setCurrentProgress in *; simpl.
        rewrite G in *. simpl.
        split; [exact S|]. split; [congruence|tauto]. }
      destruct clear; [|exact I1].
      destruct I1 as (V2 & S2 & P2').
      split; [apply view_ok_clear; exact V2|]. split; [exact S2|exact P2'].
    + repeat split; assumption.
    + apply inv_render; [|right; reflexivity].
      apply (view_ok_clear _ (Some pollInterval)) in V1. exact V1.
  - destruct (nth_error (polls w) n) as [pi|]; [|discriminate].
    unfold handlePollReply in H.
    destruct r; simpl in H; try (injection H as <-; repeat split; assumption).
    destruct (String.eqb status "completed"); simpl in H.
    + injection H as <-. apply inv_render; [|right; reflexivity].
      assert (V1 : view_ok (setStatusMessage "Generation complete!"
                     (setCurrentProgress (100%Q)
                        (set_polls (remove_nth n (polls w)) w)))).
      { apply view_ok_setStatusMessage, view_ok_setCurrentProgress. exact V. }
      apply (view_ok_clear _ (Some pi)) in V1. exact V1.
    + destruct (String.eqb status "failed"); simpl in H; injection H as <-.
      * apply inv_render; [|right; reflexivity].
        apply (view_ok_clear _ (Some pi)) in V. exact V.
      * repeat split; assumption.
  - destruct (_ && _); [|discriminate]. injection H as <-.
    repeat split; assumption.
  - destruct (disabled w); [injection H as <-; repeat split; assumption|].
    destruct (String.eqb c _); injection H as <-; [repeat split; assumption|].
    apply inv_render; [exact V|left; exact P].
  - destruct (resetOffered w); [|discriminate]. injection H as <-.
    apply inv_render; [exact V|right; reflexivity].
Qed.

Lemma reachable_inv w : reachable w -> inv w.
Proof.
  induction 1 as [|w e w' _ IH H]; [exact inv_initial|].
  exact (step_inv _ _ _ IH H).
Qed.

(** ** The start of the poller *)

(** A render with status 'processing' and a non-empty id leaves exactly
    one poll interval and one timeout in the table, due 2000 ms and
    300000 ms from now, next to the animation timer. *)
Lemma render_processing w c s :
  view_ok w ->
  App.status (generationState w) = Processing ->
  App.id (generationState w) = Some (String c s) ->
  exists g p ts,
    generationProgress (render w) = Some g /\
    GenerationProgress.pollInterval g = Some p /\
    timers (render w) =
      ts ++ [mkTimer p (now w + 2000) (Some 2000) (PollStatus (String c s));
             mkTimer (S p) (now w + 300000) None (PollTimeout p)] /\
    Forall (fun t => callback t = SimulateProgress) ts.
Proof.
  intros V St Id. unfold render. rewrite St, Id. simpl rendersProgress.
  cbv iota.
  assert (K : forall g ts n, sim_only g ts n ->
            Forall (fun t => callback t = SimulateProgress) ts).
  { intros g ts n [_ F]. eapply Forall_impl; [|exact F].
    intros t (_ & _ & C & _). exact C. }
  unfold view_ok in V.
  destruct (generationProgress w) as [g|] eqn:G.
  - destruct V as (Hh & F & U & S).
    destruct (Status_eqb (GenerationProgress.status g) Processing) eqn:E;
      simpl negb; cbv iota.
    + pose proof (clear_polls_sim_only _ _ _ Hh F) as So.
      unfold pollEffect. simpl. eexists _, _, _. repeat split. eapply K, So.
    + rewrite (clear_all _ _ _ F).
      pose proof (progressEffect_ok Processing (now w) g (nextTimer w)
                    (or_intror eq_refl)) as PR.
      destruct (progressEffect _ _ _ _ _) as [[g1 ts2] n2].
      destruct PR as (So & _). unfold pollEffect. simpl.
      eexists _, _, _. repeat split. eapply K, So.
  - rewrite V. simpl clearTimer.
    pose proof (progressEffect_ok Processing (now w)
                  (GenerationProgress.initial Processing) (nextTimer w)
                  (or_intror eq_refl)) as PR.
    destruct (progressEffect _ _ _ _ _) as [[g1 ts2] n2].
    destruct PR as (So & _). unfold pollEffect. simpl.
    eexists _, _, _. repeat split. eapply K, So.
Qed.

(** The provider's acceptance of a job with a non-empty id starts the
    poller, its timeout 300000 ms ahead. *)
Lemma polling_start w n generation_id w0 :
  inv w ->
  step w (SubmitResponse n (SubmitOk generation_id)) = Some w0 ->
  generation_id <> "" ->
  polling (now w0 + 300000) w0.
Proof.
  intros (V & _) H Ne. unfold step in H.
  destruct (nth_error (submits w) n); [|discriminate]. injection H as <-.
  destruct generation_id as [|c s]; [congruence|].
  set (w1 := set_generationState _ _).
  destruct (render_processing w1 c s V eq_refl eq_refl)
    as (g & p & ts & G & Hp & Ts & F).
  destruct (render_frame w1) as (Gs & _ & _ & _ & Nw & _).
  unfold polling. rewrite Gs, Nw.
  split; [reflexivity|]. split; [lia|].
  exists g, p, (now w1 + 2000), (String c s).
  rewrite Ts. repeat split; auto.
  - apply in_or_app. right. left. reflexivity.
  - apply in_or_app. right. right. left. reflexivity.
  - intros t q I C. apply in_app_or in I. destruct I as [I|[<-|[<-|[]]]].
    + rewrite Forall_forall in F. rewrite (F t I) in C. discriminate.
    + discriminate.
    + reflexivity.
Qed.

(** When GenerationProgress is off the page no timer is left. *)
Lemma inv_not_rendered w :
  inv w -> rendersProgress (App.status (generationState w)) = false ->
  generationProgress w = None /\ timers w = [].
Proof.
  unfold inv, view_ok, in_sync. intros (V & S & _) R.
  destruct (generationProgress w) as [g|]; [|auto].
  destruct V as (_ & _ & _ & [E|E]); rewrite E in S; rewrite <- S in R;
    discriminate.
Qed.

(** In a well-formed view the callback of a timer tells which handle
    holds it. *)
Lemma timer_kind g n t :
  timer_ok g n t ->
  match callback t with
  | SimulateProgress =>
      GenerationProgress.interval g = Some (tid t) /\ period t = Some 1000
  | PollStatus _ =>
      GenerationProgress.pollInterval g = Some (tid t) /\ period t = Some 2000
  | PollTimeout q =>
      GenerationProgress.timeout g = Some (tid t) /\
      GenerationProgress.pollInterval g = Some q /\
      period t = None
  end.
Proof.
  intros [_ [(E & C & P)|[(E & [x C] & P)|(E & [x [C E']] & P)]]];
    rewrite C; auto.
Qed.

(** Rescheduling one timer leaves the others in the table. *)
Lemma In_reschedule_other t ts u :
  In u ts -> tid u <> tid t -> In u (reschedule t ts).
Proof.
  intros I N. unfold reschedule. destruct (period t).
  - apply in_map_iff. exists u. split; [|exact I].
    apply Nat.eqb_neq in N. now rewrite N.
  - apply In_clearTimer. split; [exact I|congruence].
Qed.

Lemma In_reschedule_inv t ts u :
  In u (reschedule t ts) ->
  In u ts \/
  exists v p, In v ts /\ tid v = tid t /\ period t = Some p /\
              u = mkTimer (tid v) (due v + p) (period v) (callback v).
Proof.
  unfold reschedule. destruct (period t) as [p|].
  - intros I. apply in_map_iff in I. destruct I as (v & E & I).
    destruct (Nat.eqb_spec (tid v) (tid t)).
    + right. exists v, p. auto.
    + left. subst. exact I.
  - intros I. apply In_clearTimer in I. tauto.
Qed.

(** *** The poller between its start and its timeout

    [T] is the instant the timeout is due. *)

Section Polling.

Variable T : Z.

(** The handles and table entries of a running poller. *)
Lemma polling_handles w :
  inv w -> polling T w ->
  exists g p d generationId,
    generationProgress w = Some g /\
    GenerationProgress.pollInterval g = Some p /\
    GenerationProgress.timeout g = Some (S p) /\
    (forall h, GenerationProgress.interval g = Some h -> (h < p)%nat) /\
    Forall (timer_ok g (nextTimer w)) (timers w) /\
    handles_ok g (nextTimer w) /\
    In (mkTimer p d (Some 2000) (PollStatus generationId)) (timers w) /\
    In (mkTimer (S p) T None (PollTimeout p)) (timers w).
Proof.
  intros (V & _) (_ & _ & g & p & d & gid & G & Hp & I1 & I2 & _).
  unfold view_ok in V. rewrite G in V. destruct V as (Hh & F & _).
  exists g, p, d, gid. pose proof Hh as [_ Hh'].
  rewrite Hp in Hh'. destruct (GenerationProgress.timeout g) as [t|]; [|tauto].
  destruct Hh' as (-> & _ & Hi). splits; auto.
Qed.

(** When the timeout fires the session is timed out, at [T]. *)
Lemma timeout_fires w h t q rnd :
  inv w -> polling T w ->
  findTimer h (timers w) = Some t -> callback t = PollTimeout q ->
  due t = now w ->
  timed_out T
    (runCallback h (PollTimeout q) rnd
       (set_timers (reschedule t (timers w)) w)).
Proof.
  intros I P Ft Cb Du. apply findTimer_In in Ft. destruct Ft as [It _].
  destruct P as (_ & _ & _ & _ & _ & _ & _ & _ & _ & _ & A).
  specialize (A t q It Cb).
  unfold runCallback.
  set (w1 := set_generationState _ _).
  assert (I1 : inv (render w1)).
  { apply inv_render; [|right; reflexivity].
    destruct I as (V & _).
    apply (view_ok_clear _ (Some q)), (view_ok_reschedule w t V). }
  destruct (inv_not_rendered _ I1) as [_ E].
  { rewrite generationState_render. reflexivity. }
  destruct (render_frame w1) as (Gs & _ & _ & _ & Nw & _).
  unfold timed_out. rewrite Gs, Nw, E. simpl. splits; auto. lia.
Qed.

(** A quiet event leaves the poller running or is the timeout. *)
Lemma polling_step w e w' :
  inv w -> polling T w -> quiet e = true -> step w e = Some w' ->
  polling T w' \/ timed_out T w'.
Proof.
  intros I P Q H.
  destruct (polling_handles _ I P)
    as (g & p & d & gid & G & Hp & Ht & Hi & F & Hh & I1 & I2).
  pose proof P as (St & Le & _ & _ & _ & _ & _ & _ & _ & _ & A).
  rewrite Forall_forall in F.
  destruct e; try discriminate; simpl in H.
  - (* a timer fires *)
    destruct (findTimer h (timers w)) as [t|] eqn:Ft; [|discriminate].
    destruct (due t =? now w) eqn:Du; [|discriminate]. simpl in H.
    destruct (random_ok rnd) eqn:Rn; [|discriminate].
    injection H as <-. apply Z.eqb_eq in Du.
    destruct (callback t) eqn:Cb;
      [| |right; eapply timeout_fires; eauto].
    + (* simulated progress *)
      left. apply findTimer_In in Ft. destruct Ft as [It Et].
      pose proof (timer_kind _ _ _ (F t It)) as K. rewrite Cb in K.
      destruct K as [Ki Kp]. pose proof (Hi _ Ki) as Lt.
      assert (B : forall u, In u (timers w) -> (tid u = p \/ tid u = S p) ->
                  In u (reschedule t (timers w)) /\
                  Some h <> Some (tid u)).
      { intros u Iu Eu. split; [apply In_reschedule_other; [exact Iu|lia]|].
        intros [= E]. lia. }
      assert (A' : forall u q, In u (reschedule t (timers w)) ->
                   callback u = PollTimeout q -> due u = T).
      { intros u q Iu Cu. apply In_reschedule_inv in Iu.
        destruct Iu as [Iu|(v & per & Iv & Ev & _ & ->)]; [eauto|].
        simpl in Cu. pose proof (timer_kind _ _ _ (F v Iv)) as K.
        rewrite Cu in K. destruct K as (K & _). rewrite Ht in K.
        injection K as K. lia. }
      unfold runCallback. simpl generationProgress. rewrite G.
      destruct (GenerationProgress.simulate rnd
                  (GenerationProgress.currentProgress g)) as [cp clear].
      unfold setCurrentProgress. simpl generationProgress. rewrite G.
      destruct clear; (split; [exact St|]); (split; [exact Le|]);
        eexists _, p, d, gid;
        cbn [timers generationProgress set_timers set_generationProgress
             GenerationProgress.pollInterval];
        (split; [reflexivity|]); (split; [exact Hp|]).
      * splits.
        -- apply In_clearTimer. apply (B _ I1). auto.
        -- apply In_clearTimer. apply (B _ I2). auto.
        -- intros u q Iu. apply In_clearTimer in Iu. apply A'. tauto.
      * splits; [apply (B _ I1); auto|apply (B _ I2); auto|exact A'].
    + (* the status query is issued *)
      left. apply findTimer_In in Ft. destruct Ft as [It Et].
      pose proof (timer_kind _ _ _ (F t It)) as K. rewrite Cb in K.
      destruct K as [Ki Kp]. rewrite Hp in Ki. injection Ki as Ki.
      split; [exact St|]. split; [exact Le|].
      exists g, p, (d + 2000), gid.
      cbn [timers generationProgress set_timers set_polls set_requests].
      splits; auto.
      * unfold reschedule. rewrite Kp. apply in_map_iff.
        eexists. split; [|exact I1]. simpl. rewrite <- Ki, Nat.eqb_refl.
        reflexivity.
      * apply In_reschedule_other; [exact I2|]. simpl. lia.
      * intros u q Iu Cu. apply In_reschedule_inv in Iu.
        destruct Iu as [Iu|(v & per & Iv & Ev & _ & ->)]; [eauto|].
        simpl in Cu. pose proof (timer_kind _ _ _ (F v Iv)) as K.
        rewrite Cu in K. destruct K as (K & _). rewrite Ht in K.
        injection K as K. lia.
  - (* a reply that is not terminal *)
    destruct (nth_error (polls w) n); [|discriminate].
    assert (E : w' = set_polls (remove_nth n (polls w)) w).
    { unfold handlePollReply in H. destruct r; simpl in H; try congruence.
      simpl in Q. destruct (String.eqb status "completed"); [discriminate|].
      destruct (String.eqb status "failed"); [discriminate|].
      simpl in H. congruence. }
    subst w'. left. exact P.
  - (* time passes *)
    destruct (0 <? dt) eqn:Dt; [|discriminate]. simpl in H.
    destruct (forallb _ _) eqn:Fa; [|discriminate]. injection H as <-.
    left. rewrite forallb_forall in Fa. specialize (Fa _ I2). simpl in Fa.
    apply Z.leb_le in Fa.
    split; [exact St|]. split; [exact Fa|].
    exists g, p, d, gid. simpl. splits; auto.
Qed.

(** After the timeout quiet events change nothing but the clock. *)
Lemma timed_out_step w e w' :
  timed_out T w -> quiet e = true -> step w e = Some w' -> timed_out T w'.
Proof.
  intros (St & Er & Le & Ts) Q H. destruct e; try discriminate; simpl in H.
  - rewrite Ts in H. discriminate.
  - destruct (nth_error (polls w) n); [|discriminate].
    assert (E : w' = set_polls (remove_nth n (polls w)) w).
    { unfold handlePollReply in H. destruct r; simpl in H; try congruence.
      simpl in Q. destruct (String.eqb status "completed"); [discriminate|].
      destruct (String.eqb status "failed"); [discriminate|].
      simpl in H. congruence. }
    subst w'. repeat split; assumption.
  - destruct (0 <? dt) eqn:Dt; [|discriminate]. simpl in H.
    destruct (forallb _ _); [|discriminate]. injection H as <-.
    apply Z.ltb_lt in Dt. repeat split; simpl; auto. lia.
Qed.

Lemma polling_run es : forall w w',
  inv w -> polling T w \/ timed_out T w ->
  forallb quiet es = true -> run w es = Some w' ->
  inv w' /\ (polling T w' \/ timed_out T w').
Proof.
  induction es as [|e es IH]; intros w w' I P Q H; simpl in *.
  - injection H as <-. auto.
  - apply andb_true_iff in Q. destruct Q as [Qe Qs].
    destruct (step w e) as [w1|] eqn:S1; [|discriminate].
    apply (IH w1 w'); auto.
    + eapply step_inv; eauto.
    + destruct P as [P|P].
      * eapply polling_step; eauto.
      * right. eapply timed_out_step; eauto.
Qed.

(** At [T] the timeout can fire. *)
Lemma timeout_enabled w :
  inv w -> polling T w -> now w = T ->
  exists h w', step w (TimerFires h 0) = Some w' /\ timed_out T w'.
Proof.
  intros I P Nw.
  destruct (polling_handles _ I P)
    as (g & p & d & gid & G & Hp & Ht & Hi & F & Hh & I1 & I2).
  pose proof P as (St & Le & _ & _ & _ & _ & _ & _ & _ & _ & A).
  rewrite Forall_forall in F.
  destruct (findTimer (S p) (timers w)) as [t|] eqn:Ft.
  2:{ unfold findTimer in Ft. apply (find_none _ _ Ft) in I2.
      simpl in I2. now rewrite Nat.eqb_refl in I2. }
  pose proof (findTimer_In _ _ _ Ft) as [It Et].
  assert (Cb : callback t = PollTimeout p).
  { destruct (F t It) as [_ [(E & _)|[(E & _)|(_ & (q & C & E) & _)]]].
    - apply Hi in E. lia.
    - rewrite Hp in E. injection E as E. lia.
    - congruence. }
  pose proof (A t p It Cb) as Du.
  exists (S p). eexists. split.
  - simpl. rewrite Ft. replace (due t =? now w) with true
      by (symmetry; apply Z.eqb_eq; lia). simpl. rewrite Cb. reflexivity.
  - eapply timeout_fires; eauto. lia.
Qed.

End Polling.

(** ** Sessions *)

(** A session that can happen ends in a reachable state. *)
Lemma run_reachable es : forall w w',
  reachable w -> run w es = Some w' -> reachable w'.
Proof.
  induction es as [|e es IH]; intros w w' R H; simpl in H.
  - injection H as <-. exact R.
  - destruct (step w e) as [w1|] eqn:E; [|discriminate].
    exact (IH _ _ (reach_step _ _ _ R E) H).
Qed.

Lemma reachable_after es w :
  run initialWorld es = Some w -> reachable w.
Proof. apply run_reachable, reach_init. Qed.

(** Two sessions written out.  A 5 MiB JPEG is accepted as job "abc123"
    and the first status query finds it completed: the status ends
    'completed' with the result the provider gave, progress 100, and no
    timer.  The same upload with a provider that fails ends 'error'. *)
Example session_completes :
  generationState (after (accepted ++ provider_completes)) =
    App.mkGenerationState (Some "abc123") Completed 100
      (Some "img://abc123") None /\
  timers (after (accepted ++ provider_completes)) = [] /\
  generationProgress (after (accepted ++ provider_completes)) = None.
Proof. vm_compute. repeat split. Qed.

Example session_fails :
  generationState (after (accepted ++ provider_fails)) =
    App.mkGenerationState (Some "abc123") Error 0 None
      (Some "Generation failed. Please try again.").
Proof. vm_compute. reflexivity. Qed.

(** While processing: the progress view shows 20 to start with, the
    animation timer is due every second, the poll interval every two,
    the timeout after 300. *)
Example session_accepted :
  generationProgress (after accepted) =
    Some (GenerationProgress.mkState Processing (20%Q)
            "Generating your cosplay image..."
            (Some 0%nat) (Some 1%nat) (Some 2%nat)) /\
  timers (after accepted) =
    [mkTimer 0 1000 (Some 1000) SimulateProgress;
     mkTimer 1 2000 (Some 2000) (PollStatus "abc123");
     mkTimer 2 300000 None (PollTimeout 1)].
Proof. vm_compute. repeat split. Qed.

(** ** PhotoIntake: validation (PhotoUpload.tsx, handleFiles) *)

(** C7, as the claim states it, fails: a file that is both larger than
    10 MiB and not an image is reported as a wrong type, not as too
    large, because the type is checked first. *)
Lemma validate_oversized_pdf :
  PhotoUpload.size pdf12 > 10 * 1024 * 1024 /\
  PhotoUpload.validate pdf12 = Some PhotoUpload.InvalidType /\
  PhotoUpload.validate pdf12 <> Some PhotoUpload.TooLarge.
Proof. split; [reflexivity|]. split; [reflexivity|discriminate]. Qed.

(** C7 (amended): [validate] answers InvalidType exactly for the files
    whose declared type does not start with "image/", TooLarge exactly
    for the image files larger than 10 MiB, and accepts exactly the
    image files of at most 10 MiB. *)
Theorem validate_spec (file : PhotoUpload.File) :
  (PhotoUpload.validate file = Some PhotoUpload.InvalidType <->
   startsWith (PhotoUpload.type file) "image/" = false) /\
  (PhotoUpload.validate file = Some PhotoUpload.TooLarge <->
   startsWith (PhotoUpload.type file) "image/" = true /\
   PhotoUpload.size file > 10 * 1024 * 1024) /\
  (PhotoUpload.validate file = None <->
   startsWith (PhotoUpload.type file) "image/" = true /\
   PhotoUpload.size file <= 10 * 1024 * 1024).
Proof.
  unfold PhotoUpload.validate.
  destruct (startsWith (PhotoUpload.type file) "image/"); simpl.
  - destruct (Z.gtb_spec (PhotoUpload.size file) 10485760);
      intuition (try congruence; try lia).
  - intuition congruence.
Qed.

(** C1, as the claim states it, fails: a 12 MiB PNG is rejected by the
    upload component, and the generation state stays 'idle' with no
    error in it; the orchestrator is never told. *)
Lemma rejected_png_leaves_idle :
  exists w',
    step initialWorld (SelectFiles [png12]) = Some w' /\
    PhotoUpload.validate png12 = Some PhotoUpload.TooLarge /\
    App.status (generationState w') = Idle /\
    App.error (generationState w') = None /\
    App.status (generationState w') <> Error.
Proof.
  eexists. repeat split; discriminate.
Qed.

(** C1 (amended): when the first file offered fails validation, the
    generation state is left as it was (an idle session stays idle), no
    call to the backend is made and no work is started; unless uploads
    are disabled, the message of the failed check is put in the upload
    component's own [error]. *)
Theorem rejected_file_stays_local w file rest e w' :
  PhotoUpload.validate file = Some e ->
  step w (SelectFiles (file :: rest)) = Some w' ->
  generationState w' = generationState w /\
  requests w' = requests w /\
  readers w' = readers w /\ uploads w' = uploads w /\
  submits w' = submits w /\ polls w' = polls w /\
  timers w' = timers w /\
  (App.status (generationState w) <> Processing ->
   PhotoUpload.error (photoUpload w') = Some (PhotoUpload.message e)).
Proof.
  intros Hv H. simpl in H. injection H as <-.
  unfold handleDrop, handleFiles, disabled. rewrite Hv.
  destruct (App.status (generationState w)); simpl; splits;
    try reflexivity; intros N; try reflexivity; now elim N.
Qed.

Lemma rejected_file_stays_local_witness :
  PhotoUpload.validate png12 = Some PhotoUpload.TooLarge /\
  step initialWorld (SelectFiles [png12]) =
    Some (after [SelectFiles [png12]]) /\
  generationState (after [SelectFiles [png12]]) = App.initial /\
  requests (after [SelectFiles [png12]]) = [] /\
  PhotoUpload.error (photoUpload (after [SelectFiles [png12]])) =
    Some "File size must be less than 10MB".
Proof.
  assert (Hv : PhotoUpload.validate png12 = Some PhotoUpload.TooLarge)
    by reflexivity.
  assert (Hs : step initialWorld (SelectFiles [png12]) =
               Some (after [SelectFiles [png12]])) by reflexivity.
  destruct (rejected_file_stays_local _ _ _ _ _ Hv Hs)
    as (G & R & _ & _ & _ & _ & _ & E).
  split; [exact Hv|]. split; [exact Hs|]. split; [exact G|].
  split; [exact R|]. apply E. discriminate.
Defined.

(** ** CharacterCatalog: the fallback list (CharacterSelection.tsx) *)

(** The failures the code does handle: when the [try] block throws (the
    request throws, the response is not ok, or the body does not parse),
    the [characters] cell is set to exactly the hardcoded list; that
    list is not empty, has no two entries with the same id, and has an
    entry for each of the five styles. *)
Theorem fallback_on_failed_fetch (r : CharacterSelection.Reply)
    (s : CharacterSelection.State) :
  CharacterSelection.failed r = true ->
  CharacterSelection.characters (CharacterSelection.fetchCharacters r s) =
    Some CharacterSelection.fallback /\
  CharacterSelection.fallback <> [] /\
  NoDup (map CharacterSelection.id CharacterSelection.fallback) /\
  (forall st, In st CharacterSelection.styles ->
     exists c, In c CharacterSelection.fallback /\
               CharacterSelection.style c = st).
Proof.
  intros F. splits.
  - destruct r; try reflexivity; discriminate.
  - discriminate.
  - simpl. repeat (constructor; [simpl; intuition discriminate|]).
    constructor.
  - intros st I. simpl in I.
    destruct I as [<-|[<-|[<-|[<-|[<-|[]]]]]];
      [exists (CharacterSelection.mkCharacter "sailor-moon" "Sailor Moon"
                 "anime" "Classic anime magical girl")
      |exists (CharacterSelection.mkCharacter "wonder-woman" "Wonder Woman"
                 "superhero" "Amazonian warrior princess")
      |exists (CharacterSelection.mkCharacter "dva" "D.Va"
                 "gaming" "Professional gamer and mech pilot")
      |exists (CharacterSelection.mkCharacter "harley-quinn" "Harley Quinn"
                 "comic" "Chaotic villain with jester costume")
      |exists (CharacterSelection.mkCharacter "zelda" "Princess Zelda"
                 "fantasy" "Royal princess with magical powers")];
      (split; [simpl; auto 10|reflexivity]).
Qed.

Lemma fallback_on_failed_fetch_witness :
  CharacterSelection.failed CharacterSelection.NotOk = true /\
  CharacterSelection.characters
    (CharacterSelection.fetchCharacters CharacterSelection.NotOk
       CharacterSelection.initial) = Some CharacterSelection.fallback /\
  NoDup (map CharacterSelection.id CharacterSelection.fallback).
Proof.
  split; [reflexivity|].
  destruct (fallback_on_failed_fetch CharacterSelection.NotOk
              CharacterSelection.initial eq_refl) as (A & _ & B & _).
  split; [exact A|exact B].
Defined.

(** C6: the claim fails on the code by a missed case.  The fetch also
    fails when the response is ok and its body parses but holds no
    [characters] array (the body [{}], say).  Nothing checks the shape
    of the body: [setCharacters(data.characters)] stores [undefined],
    the [catch] branch with the hardcoded list is never reached, no
    error is recorded, and once [loading] is false the component throws
    in [characters.map] whatever character is selected, so no list at
    all is shown, and certainly not the default one. *)
Theorem catalog_without_array_gets_no_fallback (selectedCharacter : string) :
  let s' := CharacterSelection.fetchCharacters CharacterSelection.NoArray
              CharacterSelection.initial in
  CharacterSelection.failed CharacterSelection.NoArray = false /\
  CharacterSelection.characters s' = None /\
  CharacterSelection.characters s' <> Some CharacterSelection.fallback /\
  CharacterSelection.error s' = None /\
  CharacterSelection.loading s' = false /\
  CharacterSelection.view s' selectedCharacter = CharacterSelection.Throws /\
  CharacterSelection.selectable
    (CharacterSelection.view s' selectedCharacter) false = [].
Proof.
  simpl. splits; try reflexivity. discriminate.
Qed.

(** ** The request sent to the provider (App.tsx, handleImageUpload) *)

Lemma requests_render w : requests (render w) = requests w.
Proof. apply render_frame. Qed.

Lemma step_requests w e w' :
  step w e = Some w' ->
  requests w' = requests w \/
  exists r, posted r /\ requests w' = requests w ++ [r].
Proof.
  destruct e; simpl; intros H.
  - injection H as <-. left. unfold handleDrop, handleFiles.
    repeat break_match; reflexivity.
  - destruct (nth_error (readers w) n) as [[i c]|]; [|discriminate].
    injection H as <-. left. now rewrite requests_render.
  - destruct (nth_error (uploads w) n) as [[i c]|]; [|discriminate].
    destruct ok; injection H as <-.
    + right. eexists. split; [|reflexivity]. simpl. eauto.
    + left. now rewrite requests_render.
  - destruct (nth_error (submits w) n); [|discriminate].
    injection H as <-. left. rewrite requests_render. now destruct r.
  - destruct (findTimer h (timers w)) as [t|]; [|discriminate].
    destruct (_ && _); [|discriminate]. injection H as <-.
    unfold runCallback. destruct (callback t).
    + left. unfold setCurrentProgress; simpl.
      repeat (break_match; simpl); reflexivity.
    + right. eexists. split; [|reflexivity]. exact I.
    + left. now rewrite requests_render.
  - destruct (nth_error (polls w) n); [|discriminate]. left.
    unfold handlePollReply in H.
    destruct r; simpl in H; try (injection H as <-; reflexivity).
    destruct (String.eqb status "completed"); simpl in H.
    + injection H as <-. rewrite requests_render.
      unfold setStatusMessage, setCurrentProgress. simpl.
      repeat (break_match; simpl); reflexivity.
    + destruct (String.eqb status "failed"); simpl in H; injection H as <-.
      * now rewrite requests_render.
      * reflexivity.
  - destruct (_ && _); [|discriminate]. injection H as <-. now left.
  - left. destruct (disabled w); [now injection H as <-|].
    destruct (String.eqb c _); injection H as <-;
      [reflexivity|now rewrite requests_render].
  - destruct (resetOffered w); [|discriminate]. injection H as <-.
    left. now rewrite requests_render.
Qed.

Lemma reachable_posted w : reachable w -> Forall posted (requests w).
Proof.
  induction 1 as [|w e w' _ IH H]; [constructor|].
  destruct (step_requests _ _ _ H) as [->|(r & P & ->)]; [exact IH|].
  apply Forall_app. split; [exact IH|]. constructor; [exact P|constructor].
Qed.

(** C10: every generation request ever posted carries style "anime" and
    quality "high", whatever character was selected; so any two of them
    agree on both fields. *)
Theorem submissions_carry_fixed_style_and_quality w b1 b2 :
  reachable w ->
  In (PostGenerate b1) (requests w) ->
  In (PostGenerate b2) (requests w) ->
  App.get "style" b1 = Some (App.Text "anime") /\
  App.get "quality" b1 = Some (App.Text "high") /\
  App.get "style" b2 = App.get "style" b1 /\
  App.get "quality" b2 = App.get "quality" b1.
Proof.
  intros R I1 I2. pose proof (reachable_posted _ R) as F.
  rewrite Forall_forall in F.
  destruct (F _ I1) as (i1 & c1 & ->). destruct (F _ I2) as (i2 & c2 & ->).
  repeat split.
Qed.

Lemma submissions_carry_fixed_style_and_quality_witness :
  reachable (after two_submissions) /\
  In (PostGenerate (App.formData (PhotoUpload.dataURL jpeg5) "sailor-moon"))
     (requests (after two_submissions)) /\
  In (PostGenerate (App.formData (PhotoUpload.dataURL jpeg5) "zelda"))
     (requests (after two_submissions)) /\
  App.get "style" (App.formData (PhotoUpload.dataURL jpeg5) "zelda") =
    Some (App.Text "anime") /\
  App.get "quality" (App.formData (PhotoUpload.dataURL jpeg5) "zelda") =
    Some (App.Text "high").
Proof.
  assert (R : reachable (after two_submissions))
    by (apply (reachable_after two_submissions); vm_compute; reflexivity).
  assert (I1 : In (PostGenerate
                     (App.formData (PhotoUpload.dataURL jpeg5) "sailor-moon"))
                  (requests (after two_submissions)))
    by (vm_compute; left; reflexivity).
  assert (I2 : In (PostGenerate
                     (App.formData (PhotoUpload.dataURL jpeg5) "zelda"))
                  (requests (after two_submissions)))
    by (vm_compute; right; left; reflexivity).
  destruct (submissions_carry_fixed_style_and_quality _ _ _ R I2 I1)
    as (A & B & _).
  split; [exact R|]. split; [exact I1|]. split; [exact I2|].
  split; [exact A|exact B].
Defined.

(** ** StatusPoller: failed status queries (GenerationProgress.tsx) *)



(** ** The generation state: result, error and progress (App.tsx) *)

Lemma or_else_nonempty a b : b <> "" -> or_else a b <> "".
Proof. destruct a as [[|c s]|]; simpl; auto. discriminate. Qed.

(** C3, as the claim states it, fails: after a completed generation and
    a failed start, a further upload puts the status back to 'uploading'
    while both [result] and [error] of the earlier attempts are still
    set: the updaters spread [...prev] and only a reset clears them. *)
Lemma stale_result_and_error_while_uploading :
  reachable (after resubmitted_after_failure) /\
  App.status (generationState (after resubmitted_after_failure)) = Uploading /\
  App.result (generationState (after resubmitted_after_failure)) =
    Some "img://abc123" /\
  App.error (generationState (after resubmitted_after_failure)) =
    Some "Failed to start generation".
Proof.
  split; [apply (reachable_after resubmitted_after_failure)|];
    vm_compute; repeat split.
Qed.

(** C3 (amended): in every reachable state, if the status is 'completed'
    then [result] is set to a non-empty string, and if the status is
    'error' (failure or timeout) then [error] is set to a non-empty
    string. *)
Theorem terminal_status_carries_payload w :
  reachable w ->
  (App.status (generationState w) = Completed ->
   exists r, App.result (generationState w) = Some r /\ r <> "") /\
  (App.status (generationState w) = Error ->
   exists m, App.error (generationState w) = Some m /\ m <> "").
Proof.
  induction 1 as [|w e w' _ IH H].
  - split; discriminate.
  - apply step_transition in H.
    destruct H as [e|n|n gid|n st url|e m Im _ _|_]; simpl.
    + exact IH.
    + split; discriminate.
    + split; discriminate.
    + split; [|discriminate]. intros _. eexists. split; [reflexivity|].
      apply or_else_nonempty. discriminate.
    + split; [discriminate|]. intros _. exists m. split; [reflexivity|].
      simpl in Im. destruct Im as [<-|[<-|[<-|[]]]]; discriminate.
    + split; discriminate.
Qed.

Lemma terminal_status_carries_payload_witness :
  reachable (after (accepted ++ provider_completes)) /\
  App.status (generationState (after (accepted ++ provider_completes))) =
    Completed /\
  exists r,
    App.result (generationState (after (accepted ++ provider_completes))) =
      Some r /\ r <> "".
Proof.
  assert (R : reachable (after (accepted ++ provider_completes)))
    by (apply (reachable_after (accepted ++ provider_completes));
        vm_compute; reflexivity).
  assert (S : App.status
                (generationState (after (accepted ++ provider_completes))) =
              Completed) by (vm_compute; reflexivity).
  split; [exact R|]. split; [exact S|].
  exact (proj1 (terminal_status_carries_payload _ R) S).
Defined.

(** ** StatusPoller: timers (GenerationProgress.tsx) *)

Lemma inv_not_processing w :
  inv w -> App.status (generationState w) <> Processing -> timers w = [].
Proof.
  intros I N.
  destruct (rendersProgress (App.status (generationState w))) eqn:R.
  - destruct I as (V & S & _). unfold view_ok, in_sync in *.
    destruct (generationProgress w) as [g|]; [|exact V].
    destruct V as (Hh & F & U & St).
    destruct St as [St|St]; [|congruence].
    destruct (U St) as [Ui Up].
    destruct (timers w) as [|t ts]; [reflexivity|exfalso].
    apply Forall_inv in F. destruct Hh as [_ Hh]. rewrite Up in Hh.
    destruct F as [_ [[E _]|[[E _]|[E _]]]]; try congruence.
    destruct (GenerationProgress.timeout g); [tauto|discriminate].
  - apply (inv_not_rendered _ I R).
Qed.

(** C8: the claim fails on the code by a slip.  The cleanup of the
    polling effect (lines 77-80) cancels the poller, clearing its
    interval and its timeout, but the interval callback that is awaiting
    its [fetch] at that moment is not guarded: its continuation (lines
    54-63) calls [onComplete] or [onError] all the same.  Here the
    poller was cancelled by a new upload (the status is 'uploading' and
    no timer is left), and the late reply of the old query still calls
    [onComplete]: the new session is shown as completed with the old
    job's image. *)
Lemma cancelled_poller_still_completes :
  reachable (after cancelled_with_query_in_flight) /\
  App.status (generationState (after cancelled_with_query_in_flight)) =
    Uploading /\
  timers (after cancelled_with_query_in_flight) = [] /\
  exists w',
    step (after cancelled_with_query_in_flight)
      (PollResponse 0 (PollData "completed" (Some "img://abc123"))) =
      Some w' /\
    App.status (generationState w') = Completed /\
    App.result (generationState w') = Some "img://abc123".
Proof.
  split; [apply (reachable_after cancelled_with_query_in_flight);
          vm_compute; reflexivity|].
  split; [vm_compute; reflexivity|]. split; [vm_compute; reflexivity|].
  eexists. vm_compute. repeat split.
Qed.

(** Every render clears the interval and the timeout of the poller it
    finds: a poll timer in the table after a render was created by that
    render. *)
Lemma render_fresh w :
  view_ok w ->
  Forall (fun t => callback t = SimulateProgress \/ (nextTimer w <= tid t)%nat)
    (timers (render w)).
Proof.
  intros V. unfold render.
  assert (K : forall g ts n m, sim_only g ts n ->
            Forall (fun t => callback t = SimulateProgress \/ (m <= tid t)%nat)
              ts).
  { intros g ts n m [_ F]. eapply Forall_impl; [|exact F].
    intros t (_ & _ & C & _). left. exact C. }
  assert (PE : forall gid st g ts n,
            sim_only g ts n -> (nextTimer w <= n)%nat ->
            Forall (fun t => callback t = SimulateProgress \/
                             (nextTimer w <= tid t)%nat)
              (snd (fst (pollEffect gid st (now w) g ts n)))).
  { intros gid st g ts n So Le. pose proof (K _ _ _ (nextTimer w) So) as F.
    unfold pollEffect. destruct st; try exact F.
    destruct gid as [[|c s]|]; try exact F. simpl.
    apply Forall_app. split; [exact F|].
    repeat (apply Forall_cons; [right; simpl; lia|]). constructor. }
  destruct (rendersProgress (App.status (generationState w))) eqn:R.
  2:{ unfold view_ok in V. destruct (generationProgress w) as [g|]; simpl.
      - destruct V as (_ & F & _). rewrite (clear_all _ _ _ F). constructor.
      - rewrite V. constructor. }
  apply rendersProgress_true in R.
  set (st := App.status (generationState w)) in *.
  unfold view_ok in V.
  destruct (generationProgress w) as [g|] eqn:G.
  - destruct V as (Hh & F & U & S).
    destruct (Status_eqb (GenerationProgress.status g) st) eqn:E;
      simpl negb; cbv iota.
    + pose proof (PE (App.id (generationState w)) st _ _ _
                    (clear_polls_sim_only _ _ _ Hh F) (le_n _)) as X.
      destruct (pollEffect _ _ _ _ _ _) as [[g2 ts3] n3]. exact X.
    + rewrite (clear_all _ _ _ F).
      pose proof (progressEffect_ok st (now w) g (nextTimer w) R) as PR.
      assert (Le : (nextTimer w <=
                    snd (progressEffect st (now w) g [] (nextTimer w)))%nat)
        by (destruct R as [-> | ->]; simpl; lia).
      destruct (progressEffect _ _ _ _ _) as [[g1 ts2] n2].
      destruct PR as (So & _).
      pose proof (PE (App.id (generationState w)) st _ _ _ So Le) as X.
      destruct (pollEffect _ _ _ _ _ _) as [[g2 ts3] n3]. exact X.
  - rewrite V. simpl clearTimer.
    pose proof (progressEffect_ok st (now w) (GenerationProgress.initial st)
                  (nextTimer w) R) as PR.
    assert (Le : (nextTimer w <=
                  snd (progressEffect st (now w) (GenerationProgress.initial st)
                         [] (nextTimer w)))%nat)
      by (destruct R as [-> | ->]; simpl; lia).
    destruct (progressEffect _ _ _ _ _) as [[g1 ts2] n2].
    destruct PR as (So & _).
    pose proof (PE (App.id (generationState w)) st _ _ _ So Le) as X.
    destruct (pollEffect _ _ _ _ _ _) as [[g2 ts3] n3]. exact X.
Qed.

(** What the cleanup does achieve: the interval and the timeout of the
    poller are released whenever the poller stops, is cancelled or the
    session is reset.  In every reachable state whose status is not 'processing'
    (idle after a reset, uploading, completed, failed or timed out) the
    timer table is empty, so no further status query is issued and no
    timeout is reported.  Every render (the effect cleanup is what
    cancels a poller) removes the interval and the timeout it finds: a
    poll timer present afterwards was created by that render; and the
    render does not itself change the generation state, so cancelling
    calls neither [onComplete] nor [onError].  Nothing is said about
    replies to queries that were already in flight. *)
Theorem timers_released_when_not_processing w :
  reachable w ->
  (App.status (generationState w) <> Processing ->
   timers w = [] /\
   (forall h rnd, step w (TimerFires h rnd) = None)) /\
  Forall (fun t => callback t = SimulateProgress \/ (nextTimer w <= tid t)%nat)
    (timers (render w)) /\
  generationState (render w) = generationState w.
Proof.
  intros R. pose proof (reachable_inv _ R) as I.
  split; [|split; [apply render_fresh, I|apply generationState_render]].
  intros N. pose proof (inv_not_processing _ I N) as E.
  split; [exact E|]. intros h rnd. simpl. rewrite E. reflexivity.
Qed.

Lemma timers_released_when_not_processing_witness :
  reachable (after (accepted ++ provider_fails)) /\
  App.status (generationState (after (accepted ++ provider_fails))) = Error /\
  timers (after accepted) <> [] /\
  timers (after (accepted ++ provider_fails)) = [].
Proof.
  assert (R : reachable (after (accepted ++ provider_fails)))
    by (apply (reachable_after (accepted ++ provider_fails));
        vm_compute; reflexivity).
  assert (S : App.status
                (generationState (after (accepted ++ provider_fails))) = Error)
    by (vm_compute; reflexivity).
  assert (N : App.status
                (generationState (after (accepted ++ provider_fails)))
              <> Processing) by (rewrite S; discriminate).
  split; [exact R|]. split; [exact S|].
  split; [vm_compute; discriminate|].
  exact (proj1 (proj1 (timers_released_when_not_processing _ R) N)).
Defined.

(** ** Progress (App.tsx and GenerationProgress.tsx) *)

Lemma reachable_progress w :
  reachable w ->
  (App.progress (generationState w) = 0 \/
   App.progress (generationState w) = 100) /\
  (App.status (generationState w) = Completed ->
   App.progress (generationState w) = 100) /\
  (App.result (generationState w) = None ->
   App.progress (generationState w) = 0).
Proof.
  induction 1 as [|w e w' _ IH H].
  - simpl. splits; auto; discriminate.
  - apply step_transition in H.
    destruct H as [e|n|n gid|n st url|e m Im _ _|_]; simpl;
      try exact IH; splits; auto; try discriminate; try apply IH.
Qed.

(** A render that finds GenerationProgress on the page with the status
    it already had leaves the displayed progress alone. *)
Lemma render_same_status w g :
  generationProgress w = Some g ->
  GenerationProgress.status g = App.status (generationState w) ->
  rendersProgress (App.status (generationState w)) = true ->
  exists g', generationProgress (render w) = Some g' /\
             GenerationProgress.currentProgress g' =
               GenerationProgress.currentProgress g.
Proof.
  intros G E R. unfold render. rewrite R, G.
  apply Status_eqb_eq in E. rewrite E. simpl negb. cbv iota.
  destruct (pollEffect _ _ _ _ _ _) as [[g2 ts3] n3] eqn:PE.
  eexists. split; [reflexivity|]. simpl.
  unfold pollEffect in PE. repeat break_match_in PE; injection PE as <- _ _;
    reflexivity.
Qed.

(** While the status stays 'processing' the displayed progress does not
    go down. *)
Lemma processing_step_progress w e w' g g' :
  inv w -> step w e = Some w' ->
  App.status (generationState w) = Processing ->
  App.status (generationState w') = Processing ->
  generationProgress w = Some g ->
  generationProgress w' = Some g' ->
  (GenerationProgress.currentProgress g <=
   GenerationProgress.currentProgress g')%Q.
Proof.
  intros I H St St' G G'.
  assert (Same : generationProgress w' = generationProgress w ->
                 (GenerationProgress.currentProgress g <=
                  GenerationProgress.currentProgress g')%Q).
  { intros E. rewrite G, G' in E. injection E as ->. apply Qle_refl. }
  pose proof I as (V & S & P). unfold in_sync in S. rewrite G in S.
  unfold progress_ok in P. rewrite G in P.
  destruct e; simpl in H.
  - injection H as <-. apply Same. unfold handleDrop, disabled.
    rewrite St. reflexivity.
  - destruct (nth_error (readers w) n) as [[i c]|]; [|discriminate].
    injection H as <-. rewrite generationState_render in St'. discriminate.
  - destruct (nth_error (uploads w) n) as [[i c]|]; [|discriminate].
    destruct ok; injection H as <-.
    + apply Same. reflexivity.
    + rewrite generationState_render in St'. discriminate.
  - destruct (nth_error (submits w) n); [|discriminate].
    injection H as <-.
    destruct r; try (rewrite generationState_render in St'; discriminate).
    assert (X : exists g2,
               generationProgress
                 (render (handleSubmitReply (SubmitOk generation_id)
                            (set_submits (remove_nth n (submits w)) w))) =
                 Some g2 /\
               GenerationProgress.currentProgress g2 =
                 GenerationProgress.currentProgress g)
      by (apply render_same_status; simpl; auto; congruence).
    destruct X as (g2 & G2 & E2).
    rewrite G2 in G'. injection G' as ->. rewrite E2. apply Qle_refl.
  - destruct (findTimer h (timers w)) as [t|] eqn:Ft; [|discriminate].
    destruct (due t =? now w); [|discriminate]. simpl in H.
    destruct (random_ok rnd) eqn:Rn; [|discriminate].
    injection H as <-. unfold runCallback in *.
    destruct (callback t).
    + simpl generationProgress in G'. rewrite G in G'.
      rewrite S in P. destruct P as [_ P]. destruct (P St) as [P1 P2].
      pose proof (simulate_bounds rnd _ Rn P1 P2) as B.
      destruct (GenerationProgress.simulate rnd
                  (GenerationProgress.currentProgress g)) as [p clear].
      simpl in B. unfold setCurrentProgress in G'.
      simpl generationProgress in G'. rewrite G in G'.
      destruct clear; simpl in G'; injection G' as <-; simpl; apply B.
    + apply Same. reflexivity.
    + rewrite generationState_render in St'. discriminate.
  - destruct (nth_error (polls w) n) as [pi|]; [|discriminate].
    unfold handlePollReply in H.
    destruct r; simpl in H; try (injection H as <-; apply Same; reflexivity).
    destruct (String.eqb status "completed"); simpl in H.
    + injection H as <-. rewrite generationState_render in St'.
      simpl in St'. discriminate.
    + destruct (String.eqb status "failed"); simpl in H; injection H as <-.
      * rewrite generationState_render in St'. discriminate.
      * apply Same. reflexivity.
  - destruct (_ && _); [|discriminate]. injection H as <-. apply Same.
    reflexivity.
  - unfold disabled in H. rewrite St in H. simpl in H. injection H as <-.
    apply Same. reflexivity.
  - unfold resetOffered in H. rewrite St in H. discriminate.
Qed.

(** C9, as the claim states it, fails: after a completed generation the
    user may upload again without a reset; the new request starts with
    the old progress 100, and when the provider accepts it the progress
    is put back to 0, from one non-terminal state to the next. *)
Lemma progress_drops_on_resubmission :
  reachable (after resubmitted_after_completion) /\
  exists w',
    step (after resubmitted_after_completion)
      (SubmitResponse 0 (SubmitOk "def456")) = Some w' /\
    App.status (generationState (after resubmitted_after_completion)) =
      Uploading /\
    App.progress (generationState (after resubmitted_after_completion)) =
      100 /\
    App.status (generationState w') = Processing /\
    App.progress (generationState w') = 0.
Proof.
  split; [apply (reachable_after resubmitted_after_completion);
          vm_compute; reflexivity|].
  eexists. vm_compute. repeat split.
Qed.

(** C9 (amended): in every reachable state the progress of the
    generation state is 0 or 100, hence in [0,100]; it is 100 whenever
    the status is 'completed', and it is 0 as long as no generation has
    completed since the last reset.  A step into (or within) 'error'
    leaves it as it was.  A step never lowers it, except that a reset
    and the provider's acceptance of a submission put it back to 0.  The
    percentage shown by GenerationProgress lies in [0,100], and a step
    does not lower it unless the status goes from 'processing' back to
    'uploading'. *)
Theorem progress_range_and_steps w e w' :
  reachable w ->
  step w e = Some w' ->
  (App.progress (generationState w) = 0 \/
   App.progress (generationState w) = 100) /\
  (App.status (generationState w) = Completed ->
   App.progress (generationState w) = 100) /\
  (App.result (generationState w) = None ->
   App.progress (generationState w) = 0) /\
  (App.status (generationState w') = Error ->
   App.progress (generationState w') = App.progress (generationState w)) /\
  (App.progress (generationState w) <= App.progress (generationState w') \/
   App.progress (generationState w') = 0 /\
   (e = Reset \/
    exists n generation_id, e = SubmitResponse n (SubmitOk generation_id))) /\
  (forall g, generationProgress w = Some g ->
     (0 <= GenerationProgress.currentProgress g)%Q /\
     (GenerationProgress.currentProgress g <= 100)%Q) /\
  (forall g g',
     generationProgress w = Some g -> generationProgress w' = Some g' ->
     (GenerationProgress.currentProgress g <=
      GenerationProgress.currentProgress g')%Q \/
     (App.status (generationState w) = Processing /\
      App.status (generationState w') = Uploading)).
Proof.
  intros R H.
  pose proof (reachable_progress _ R) as (P1 & P2 & P3).
  pose proof (reachable_inv _ R) as I.
  pose proof (step_inv _ _ _ I H) as I'.
  pose proof (step_transition _ _ _ H) as Tr.
  split; [exact P1|]. split; [exact P2|]. split; [exact P3|].
  split; [|split; [|split]].
  - destruct Tr as [e|n|n gid|n st url|e m Im _ _|_]; simpl; auto;
      discriminate.
  - destruct Tr as [e|n|n gid|n st url|e m Im _ _|_]; simpl;
      try (left; lia); right; eauto.
  - intros g G. destruct I as (V & _ & P).
    unfold view_ok, progress_ok in V, P. rewrite G in V, P.
    destruct V as (_ & _ & _ & St). destruct P as [Pu Pp].
    destruct St as [St|St].
    + rewrite (Pu St). split; discriminate.
    + destruct (Pp St). split; lra.
  - intros g g' G G'.
    destruct I as (V & S & P). destruct I' as (V' & S' & P').
    unfold view_ok, in_sync, progress_ok in V, S, P, V', S', P'.
    rewrite G in V, S, P. rewrite G' in V', S', P'.
    destruct V as (_ & _ & _ & St). destruct V' as (_ & _ & _ & St').
    destruct P as [Pu Pp]. destruct P' as [Pu' Pp'].
    destruct St as [St|St].
    + left. rewrite (Pu St).
      destruct St' as [St'|St'];
        [rewrite (Pu' St'); apply Qle_refl|destruct (Pp' St'); lra].
    + destruct St' as [St'|St'].
      * right. split; congruence.
      * left. apply (processing_step_progress w e w' g g'); auto;
          try congruence. apply (reachable_inv _ R).
Qed.

Lemma progress_range_and_steps_witness :
  reachable (after (accepted ++ [Elapse 1000])) /\
  step (after (accepted ++ [Elapse 1000])) (TimerFires 0 (1 # 2)) =
    Some (after (accepted ++ [Elapse 1000; TimerFires 0 (1 # 2)])) /\
  App.progress (generationState (after (accepted ++ [Elapse 1000]))) = 0 /\
  (App.progress (generationState (after (accepted ++ [Elapse 1000]))) = 0 \/
   App.progress (generationState (after (accepted ++ [Elapse 1000]))) = 100).
Proof.
  assert (R : reachable (after (accepted ++ [Elapse 1000])))
    by (apply (reachable_after (accepted ++ [Elapse 1000]));
        vm_compute; reflexivity).
  assert (S : step (after (accepted ++ [Elapse 1000]))
                (TimerFires 0 (1 # 2)) =
              Some (after (accepted ++ [Elapse 1000; TimerFires 0 (1 # 2)])))
    by (vm_compute; reflexivity).
  destruct (progress_range_and_steps _ _ _ R S) as (A & _ & B & _).
  split; [exact R|]. split; [exact S|]. split; [|exact A].
  apply B. vm_compute. reflexivity.
Defined.

(** ** Submitting while a request is in flight (App.tsx, PhotoUpload.tsx) *)

(** While the status is 'processing' the upload area is disabled and
    offering files does nothing. *)
Lemma submit_rejected_while_processing w files :
  App.status (generationState w) = Processing ->
  step w (SelectFiles files) = Some w.
Proof.
  intros St. simpl. unfold handleDrop, disabled. rewrite St. reflexivity.
Qed.

(** C5 (the code at the failing input): the status is 'uploading' and a
    POST is in flight; a second photo is offered.  It is not rejected:
    a second POST is issued while the first is still in flight, and when
    both are accepted the id of the first job is overwritten by the
    second without any error. *)
Theorem second_submit_accepted_while_uploading :
  App.status (generationState (after submitted)) = Uploading /\
  List.length (submits (after submitted)) = 1%nat /\
  run (after submitted) submitted = Some (after (submitted ++ submitted)) /\
  App.status (generationState (after (submitted ++ submitted))) = Uploading /\
  List.length (submits (after (submitted ++ submitted))) = 2%nat /\
  List.length (requests (after (submitted ++ submitted))) = 2%nat /\
  exists w1 w2,
    step (after (submitted ++ submitted))
      (SubmitResponse 0 (SubmitOk "job-1")) = Some w1 /\
    App.id (generationState w1) = Some "job-1" /\
    step w1 (SubmitResponse 0 (SubmitOk "job-2")) = Some w2 /\
    App.id (generationState w2) = Some "job-2" /\
    App.status (generationState w2) = Processing /\
    App.error (generationState w2) = None.
Proof.
  splits; try (vm_compute; reflexivity).
  eexists. eexists. vm_compute. repeat split.
Qed.

(** ** StatusPoller: the timeout (GenerationProgress.tsx) *)

(** C2, as the claim states it, fails: [GenerationState.status] has no
    value for a timeout.  A session in which the provider never gives a
    terminal status and one in which it reports failure both end with
    status 'error'; only the text of [error] differs. *)
Lemma timeout_and_failure_share_status :
  App.status (generationState (after (accepted ++ never_terminal))) = Error /\
  App.status (generationState (after (accepted ++ provider_fails))) = Error /\
  App.error (generationState (after (accepted ++ never_terminal))) =
    Some "Generation timed out. Please try again." /\
  App.error (generationState (after (accepted ++ provider_fails))) =
    Some "Generation failed. Please try again." /\
  run initialWorld (accepted ++ never_terminal) =
    Some (after (accepted ++ never_terminal)) /\
  run initialWorld (accepted ++ provider_fails) =
    Some (after (accepted ++ provider_fails)).
Proof. splits; vm_compute; reflexivity. Qed.

(** C2 (amended): once the provider has accepted a submission with a
    non-empty job id, and as long as nothing happens but time passing,
    timers firing and status replies that are not terminal, the poller
    keeps running while the clock is at most 300000 ms past the
    acceptance, the clock cannot pass that instant while it runs, at
    that instant the timeout can fire, and when it has fired the status
    is 'error' with the message "Generation timed out. Please try
    again." and no timer is left.  The status is the same 'error' a
    provider failure gives; the two differ in the message only. *)
Theorem poller_times_out_at_boundary w n generation_id w0 es w' :
  reachable w ->
  step w (SubmitResponse n (SubmitOk generation_id)) = Some w0 ->
  generation_id <> "" ->
  forallb quiet es = true ->
  run w0 es = Some w' ->
  ((polling (now w0 + 300000) w' /\
    (now w' = now w0 + 300000 ->
     exists h w'', step w' (TimerFires h 0) = Some w'' /\
                   timed_out (now w0 + 300000) w''))
   \/ timed_out (now w0 + 300000) w') /\
  App.status (App.handleGenerationError msg_timed_out (generationState w')) =
    App.status
      (App.handleGenerationError msg_generation_failed (generationState w')) /\
  msg_timed_out <> msg_generation_failed.
Proof.
  intros R H Ne Q Hr.
  pose proof (reachable_inv _ R) as I.
  pose proof (step_inv _ _ _ I H) as I0.
  pose proof (polling_start _ _ _ _ I H Ne) as P0.
  split; [|split; [reflexivity|discriminate]].
  destruct (polling_run _ es w0 w' I0 (or_introl P0) Q Hr) as (I' & [P|T]).
  - left. split; [exact P|]. intros E. apply timeout_enabled; auto.
  - right. exact T.
Qed.

Lemma poller_times_out_at_boundary_witness :
  reachable (after submitted) /\
  step (after submitted) (SubmitResponse 0 (SubmitOk "abc123")) =
    Some (after accepted) /\
  "abc123" <> "" /\
  forallb quiet never_terminal = true /\
  run (after accepted) never_terminal =
    Some (after (accepted ++ never_terminal)) /\
  timed_out 300000 (after (accepted ++ never_terminal)) /\
  now (after (accepted ++ never_terminal)) = 300000.
Proof.
  assert (R : reachable (after submitted))
    by (apply (reachable_after submitted); vm_compute; reflexivity).
  assert (S : step (after submitted) (SubmitResponse 0 (SubmitOk "abc123")) =
              Some (after accepted)) by (vm_compute; reflexivity).
  assert (Ne : "abc123" <> "") by discriminate.
  assert (Q : forallb quiet never_terminal = true)
    by (vm_compute; reflexivity).
  assert (Hr : run (after accepted) never_terminal =
               Some (after (accepted ++ never_terminal)))
    by (vm_compute; reflexivity).
  split; [exact R|]. split; [exact S|]. split; [exact Ne|].
  split; [exact Q|]. split; [exact Hr|].
  split; [|vm_compute; reflexivity].
  destruct (poller_times_out_at_boundary _ _ _ _ _ _ R S Ne Q Hr)
    as ([[(St & _) _]|T] & _).
  - exfalso. revert St. vm_compute. discriminate.
  - exact T.
Defined.


(** * More of the code *)

(** ** The timer table after a render and after a step *)

(** After a render the table holds the animation timer, if any, followed
    by the two timers of a new poller exactly when the guard of the
    polling effect holds. *)
Lemma render_shape w :
  view_ok w ->
  exists sims p,
    timers (render w) =
      sims ++
      match App.status (generationState w), App.id (generationState w) with
      | Processing, Some (String c s) => pollerTimers p (now w) (String c s)
      | _, _ => []
      end /\
    Forall (fun t => callback t = SimulateProgress) sims.
Proof.
  intros V. unfold render.
  assert (K : forall g ts n, sim_only g ts n ->
            Forall (fun t => callback t = SimulateProgress) ts).
  { intros g ts n [_ F]. eapply Forall_impl; [|exact F].
    intros t (_ & _ & C & _). exact C. }
  assert (PE : forall gid st g ts n,
            snd (fst (pollEffect gid st (now w) g ts n)) =
            ts ++ match st, gid with
                  | Processing, Some (String c s) =>
                      pollerTimers n (now w) (String c s)
                  | _, _ => []
                  end).
  { intros gid st g ts n. unfold pollEffect.
    destruct st; try (simpl; now rewrite app_nil_r).
    destruct gid as [[|c s]|]; simpl; try now rewrite app_nil_r.
    reflexivity. }
  destruct (rendersProgress (App.status (generationState w))) eqn:R.
  2:{ exists [], 0%nat. split; [|constructor].
      unfold view_ok in V.
      destruct (App.status (generationState w)); try discriminate;
        (destruct (generationProgress w) as [g|]; simpl;
         [destruct V as (_ & F & _); now rewrite (clear_all _ _ _ F)
         |exact V]). }
  apply rendersProgress_true in R.
  set (st := App.status (generationState w)) in *.
  unfold view_ok in V.
  destruct (generationProgress w) as [g|] eqn:G.
  - destruct V as (Hh & F & U & S).
    destruct (Status_eqb (GenerationProgress.status g) st) eqn:E;
      simpl negb; cbv iota.
    + pose proof (PE (App.id (generationState w)) st g
                    (clearTimer (GenerationProgress.timeout g)
                       (clearTimer (GenerationProgress.pollInterval g)
                          (timers w))) (nextTimer w)) as X.
      pose proof (K _ _ _ (clear_polls_sim_only _ _ _ Hh F)) as Ks.
      destruct (pollEffect _ _ _ _ _ _) as [[g2 ts3] n3]. simpl in X.
      eexists _, _. split; [exact X|exact Ks].
    + rewrite (clear_all _ _ _ F).
      pose proof (progressEffect_ok st (now w) g (nextTimer w) R) as PR.
      destruct (progressEffect _ _ _ _ _) as [[g1 ts2] n2].
      destruct PR as (So & _).
      pose proof (PE (App.id (generationState w)) st g1 ts2 n2) as X.
      destruct (pollEffect _ _ _ _ _ _) as [[g2 ts3] n3]. simpl in X.
      eexists _, _. split; [exact X|exact (K _ _ _ So)].
  - rewrite V. simpl clearTimer.
    pose proof (progressEffect_ok st (now w) (GenerationProgress.initial st)
                  (nextTimer w) R) as PR.
    destruct (progressEffect _ _ _ _ _) as [[g1 ts2] n2].
    destruct PR as (So & _).
    pose proof (PE (App.id (generationState w)) st g1 ts2 n2) as X.
    destruct (pollEffect _ _ _ _ _ _) as [[g2 ts3] n3]. simpl in X.
    eexists _, _. split; [exact X|exact (K _ _ _ So)].
Qed.

(** A step ends with a render of a well-formed view, or leaves the
    generation state alone and either keeps the timer table or is the
    firing of the animation timer or of the poll interval. *)
Lemma step_shape w e w' :
  inv w -> step w e = Some w' ->
  (exists w1, w' = render w1 /\ view_ok w1) \/
  (generationState w' = generationState w /\
   ((timers w' = timers w /\
     forall generationId,
       In (GetGeneration generationId) (requests w') ->
       In (GetGeneration generationId) (requests w)) \/
    exists t rnd,
      e = TimerFires (tid t) rnd /\ In t (timers w) /\
      ((callback t = SimulateProgress /\ requests w' = requests w /\
        (timers w' = reschedule t (timers w) \/
         timers w' = clearTimer (Some (tid t)) (reschedule t (timers w))))
       \/ (exists generationId,
             callback t = PollStatus generationId /\
             requests w' = requests w ++ [GetGeneration generationId] /\
             timers w' = reschedule t (timers w))))).
Proof.
  intros (V & _) H.
  assert (N : forall w2, generationState w2 = generationState w ->
              timers w2 = timers w -> requests w2 = requests w ->
              (exists w1, w2 = render w1 /\ view_ok w1) \/
              (generationState w2 = generationState w /\
               ((timers w2 = timers w /\
                 forall generationId,
                   In (GetGeneration generationId) (requests w2) ->
                   In (GetGeneration generationId) (requests w)) \/
                exists t rnd,
                  e = TimerFires (tid t) rnd /\ In t (timers w) /\
                  ((callback t = SimulateProgress /\
                    requests w2 = requests w /\
                    (timers w2 = reschedule t (timers w) \/
                     timers w2 =
                       clearTimer (Some (tid t)) (reschedule t (timers w))))
                   \/ (exists generationId,
                         callback t = PollStatus generationId /\
                         requests w2 =
                           requests w ++ [GetGeneration generationId] /\
                         timers w2 = reschedule t (timers w)))))).
  { intros w2 E1 E2 E3. right. split; [exact E1|]. left.
    split; [exact E2|]. now rewrite E3. }
  destruct e; simpl in H.
  - injection H as <-. unfold handleDrop, handleFiles.
    repeat break_match; apply N; reflexivity.
  - destruct (nth_error (readers w) n) as [[i c]|]; [|discriminate].
    injection H as <-. left. eexists. split; [reflexivity|exact V].
  - destruct (nth_error (uploads w) n) as [[i c]|]; [|discriminate].
    destruct ok; injection H as <-.
    + right. split; [reflexivity|]. left. split; [reflexivity|].
      simpl. intros gid I. apply in_app_or in I.
      destruct I as [I|[I|[]]]; [exact I|discriminate].
    + left. eexists. split; [reflexivity|exact V].
  - destruct (nth_error (submits w) n); [|discriminate].
    injection H as <-. left. eexists. split; [reflexivity|].
    destruct r; exact V.
  - destruct (findTimer h (timers w)) as [t|] eqn:Ft; [|discriminate].
    destruct (due t =? now w) eqn:Du; [|discriminate]. simpl in H.
    destruct (random_ok rnd) eqn:Rn; [|discriminate].
    injection H as <-. apply findTimer_In in Ft. destruct Ft as [It <-].
    unfold runCallback. destruct (callback t) eqn:Cb.
    + right. simpl generationProgress.
      destruct (generationProgress w) as [g|] eqn:G.
      * destruct (GenerationProgress.simulate rnd
                    (GenerationProgress.currentProgress g)) as [p clear].
        unfold setCurrentProgress. simpl generationProgress. rewrite G.
        destruct clear; (split; [reflexivity|]); right; exists t, rnd;
          (split; [reflexivity|]); (split; [exact It|]); left;
          (split; [exact Cb|]); (split; [reflexivity|]);
          [right|left]; reflexivity.
      * split; [reflexivity|]. right. exists t, rnd.
        split; [reflexivity|]. split; [exact It|]. left.
        split; [exact Cb|]. split; [reflexivity|]. left. reflexivity.
    + right. split; [reflexivity|]. right. exists t, rnd.
      split; [reflexivity|]. split; [exact It|]. right.
      exists generationId. split; [exact Cb|]. split; reflexivity.
    + left. eexists. split; [reflexivity|].
      apply (view_ok_clear _ (Some pollInterval)),
        (view_ok_reschedule w t V).
  - destruct (nth_error (polls w) n) as [pi|]; [|discriminate].
    unfold handlePollReply in H.
    destruct r; simpl in H; try (injection H as <-; apply N; reflexivity).
    destruct (String.eqb status "completed"); simpl in H.
    + injection H as <-. left. eexists. split; [reflexivity|].
      assert (V1 : view_ok (setStatusMessage "Generation complete!"
                     (setCurrentProgress (100%Q)
                        (set_polls (remove_nth n (polls w)) w)))).
      { apply view_ok_setStatusMessage, view_ok_setCurrentProgress. exact V. }
      apply (view_ok_clear _ (Some pi)) in V1. exact V1.
    + destruct (String.eqb status "failed"); simpl in H; injection H as <-.
      * left. eexists. split; [reflexivity|].
        apply (view_ok_clear _ (Some pi)) in V. exact V.
      * apply N; reflexivity.
  - destruct (_ && _); [|discriminate]. injection H as <-.
    apply N; reflexivity.
  - destruct (disabled w); [injection H as <-; apply N; reflexivity|].
    destruct (String.eqb c _); injection H as <-; [apply N; reflexivity|].
    left. eexists. split; [reflexivity|exact V].
  - destruct (resetOffered w); [|discriminate]. injection H as <-.
    left. eexists. split; [reflexivity|exact V].
Qed.

(** ** One poller, for the current job *)

Lemma filter_sims (q : Timer -> bool) sims :
  (forall t, callback t = SimulateProgress -> q t = false) ->
  Forall (fun t => callback t = SimulateProgress) sims ->
  filter q sims = [].
Proof.
  intros Q F. induction F as [|t l C _ IH]; simpl; [reflexivity|].
  now rewrite (Q t C).
Qed.

Lemma render_one_poller w : view_ok w -> one_poller (render w).
Proof.
  intros V. destruct (render_shape w V) as (sims & p & E & F).
  unfold one_poller. rewrite generationState_render, E. clear E.
  rewrite !filter_app, !length_app.
  rewrite (filter_sims is_poll sims), (filter_sims is_timeout sims); auto;
    try (intros t C; unfold is_poll, is_timeout; now rewrite C).
  unfold pollers.
  destruct (App.status (generationState w));
    try (rewrite app_nil_r; splits; try reflexivity;
         intros t gid I C; rewrite Forall_forall in F;
         rewrite (F t I) in C; discriminate).
  destruct (App.id (generationState w)) as [[|c s]|];
    try (rewrite app_nil_r; splits; try reflexivity;
         intros t gid I C; rewrite Forall_forall in F;
         rewrite (F t I) in C; discriminate).
  splits; try reflexivity.
  intros t gid I C. apply in_app_or in I. destruct I as [I|[<-|[<-|[]]]].
  - rewrite Forall_forall in F. rewrite (F t I) in C. discriminate.
  - simpl in C. congruence.
  - discriminate.
Qed.

Lemma reschedule_callbacks t ts u :
  In u (reschedule t ts) ->
  exists v, In v ts /\ callback v = callback u /\ tid v = tid u.
Proof.
  intros I. apply In_reschedule_inv in I.
  destruct I as [I|(v & p & I & _ & _ & ->)]; eauto.
Qed.

Lemma reschedule_count (q : Timer -> bool) t ts p :
  (forall u d, q (mkTimer (tid u) d (period u) (callback u)) = q u) ->
  period t = Some p ->
  List.length (filter q (reschedule t ts)) = List.length (filter q ts).
Proof.
  intros Q P. unfold reschedule. rewrite P.
  induction ts as [|u l IH]; simpl; [reflexivity|].
  destruct (Nat.eqb (tid u) (tid t)); [rewrite Q|];
    destruct (q u); simpl; now rewrite IH.
Qed.

Lemma clear_count (q : Timer -> bool) h ts :
  (forall u, In u ts -> q u = true -> tid u <> h) ->
  filter q (clearTimer (Some h) ts) = filter q ts.
Proof.
  intros Q. simpl. induction ts as [|u l IH]; simpl; [reflexivity|].
  assert (IH' : filter q (filter (fun t => negb (Nat.eqb (tid t) h)) l) =
                filter q l) by (apply IH; intros; apply Q; simpl; auto).
  destruct (Nat.eqb_spec (tid u) h) as [E|E]; simpl.
  - destruct (q u) eqn:Qu; [|exact IH'].
    elim (Q u (or_introl eq_refl) Qu E).
  - destruct (q u); now rewrite IH'.
Qed.

Lemma step_one_poller w e w' :
  inv w -> one_poller w -> step w e = Some w' -> one_poller w'.
Proof.
  intros I O H. pose proof I as (V & _).
  destruct (step_shape _ _ _ I H)
    as [(w1 & -> & V1)|(G & [(T & _)|(t & rnd & _ & It & K)])].
  - apply render_one_poller, V1.
  - unfold one_poller in *. rewrite G, T. exact O.
  - assert (X : exists g, generationProgress w = Some g /\
                  handles_ok g (nextTimer w) /\
                  Forall (timer_ok g (nextTimer w)) (timers w)).
    { unfold view_ok in V. destruct (generationProgress w) as [g|].
      - exists g. tauto.
      - rewrite V in It. destruct It. }
    destruct X as (g & Gp & Hh & F). rewrite Forall_forall in F.
    pose proof (timer_kind _ _ _ (F t It)) as Kt.
    assert (P : exists p, period t = Some p).
    { destruct K as [(C & _)|(gid & C & _)]; rewrite C in Kt;
        destruct Kt as [_ Kp]; eauto. }
    destruct P as [p P].
    assert (Q1 : forall u d,
              is_poll (mkTimer (tid u) d (period u) (callback u)) = is_poll u)
      by reflexivity.
    assert (Q2 : forall u d,
              is_timeout (mkTimer (tid u) d (period u) (callback u)) =
              is_timeout u) by reflexivity.
    pose proof (reschedule_count is_poll t (timers w) p Q1 P) as C1.
    pose proof (reschedule_count is_timeout t (timers w) p Q2 P) as C2.
    destruct O as (O1 & O2 & O3).
    assert (R : one_poller (set_timers (reschedule t (timers w)) w)).
    { unfold one_poller. simpl. rewrite C1, C2. splits; auto.
      intros u gid Iu Cu. apply reschedule_callbacks in Iu.
      destruct Iu as (v & Iv & Cv & _). apply (O1 v); congruence. }
    unfold one_poller in *. rewrite G. simpl in R.
    destruct K as [(C & _ & [T|T])|(gid & C & _ & T)]; rewrite T;
      try exact R.
    (* the animation timer cleared itself *)
    rewrite C in Kt. destruct Kt as [Ki _].
    destruct Hh as [_ Hh].
    assert (D : forall u, In u (reschedule t (timers w)) ->
                is_poll u = true \/ is_timeout u = true -> tid u <> tid t).
    { intros u Iu Qu. apply reschedule_callbacks in Iu.
      destruct Iu as (v & Iv & Cv & <-).
      pose proof (timer_kind _ _ _ (F v Iv)) as Kv.
      unfold is_poll, is_timeout in Qu. rewrite <- Cv in Qu.
      destruct (callback v).
      - destruct Qu; discriminate.
      - destruct Kv as [Kv _]. rewrite Kv in Hh.
        destruct (GenerationProgress.timeout g); [|tauto].
        destruct Hh as (_ & _ & Hi). apply Hi in Ki. lia.
      - destruct Kv as (Kv & Kp & _). rewrite Kp, Kv in Hh.
        destruct Hh as (E & _ & Hi). apply Hi in Ki. lia. }
    rewrite !clear_count; try (intros u Iu Qu; apply D; auto).
    destruct R as (R1 & R2 & R3). splits; auto.
    intros u gid Iu. apply In_clearTimer in Iu. apply R1. tauto.
Qed.

Lemma reachable_one_poller w : reachable w -> one_poller w.
Proof.
  induction 1 as [|w e w' R IH H].
  - unfold one_poller. simpl. splits; auto. intros t gid [].
  - exact (step_one_poller _ _ _ (reachable_inv _ R) IH H).
Qed.

Lemma reachable_timers_processing w t :
  reachable w -> In t (timers w) ->
  App.status (generationState w) = Processing.
Proof.
  intros R I.
  destruct (App.status (generationState w)) eqn:St; try reflexivity;
    rewrite (inv_not_processing _ (reachable_inv _ R)) in I;
    try (rewrite St; discriminate); destruct I.
Qed.

(** X1: in every reachable state the timer table holds exactly one poll
    interval and exactly one timeout while the status is 'processing'
    with a non-empty job id, and none of either otherwise; and every
    poll interval in the table polls the job id the generation state
    holds.  Two pollers never run side by side and none polls a stale
    job. *)
Theorem exactly_one_poller w :
  reachable w ->
  List.length (filter is_poll (timers w)) = pollers (generationState w) /\
  List.length (filter is_timeout (timers w)) = pollers (generationState w) /\
  (forall t generationId,
     In t (timers w) -> callback t = PollStatus generationId ->
     App.id (generationState w) = Some generationId /\
     App.status (generationState w) = Processing).
Proof.
  intros R. destruct (reachable_one_poller _ R) as (O1 & O2 & O3).
  splits; auto. intros t gid I C. split; [eauto|].
  eapply reachable_timers_processing; eauto.
Qed.

Lemma exactly_one_poller_witness :
  reachable (after (submitted ++ submitted ++
                    [SubmitResponse 0 (SubmitOk "job-1");
                     SubmitResponse 0 (SubmitOk "job-2")])) /\
  List.length
    (filter is_poll
       (timers (after (submitted ++ submitted ++
                       [SubmitResponse 0 (SubmitOk "job-1");
                        SubmitResponse 0 (SubmitOk "job-2")])))) = 1%nat.
Proof.
  assert (R : reachable (after (submitted ++ submitted ++
                    [SubmitResponse 0 (SubmitOk "job-1");
                     SubmitResponse 0 (SubmitOk "job-2")])))
    by (apply (reachable_after (submitted ++ submitted ++
                    [SubmitResponse 0 (SubmitOk "job-1");
                     SubmitResponse 0 (SubmitOk "job-2")]));
        vm_compute; reflexivity).
  split; [exact R|].
  rewrite (proj1 (exactly_one_poller _ R)). vm_compute. reflexivity.
Defined.

(** X2: whenever a timer callback issues a status query, the query is
    for the job id the generation state holds at that moment, that id
    is not empty, and the status is 'processing'; a timer firing makes
    no other call to the backend. *)
Theorem status_query_is_for_current_job w h rnd w' :
  reachable w ->
  step w (TimerFires h rnd) = Some w' ->
  requests w' = requests w \/
  exists generationId,
    requests w' = requests w ++ [GetGeneration generationId] /\
    App.id (generationState w) = Some generationId /\
    generationId <> "" /\
    App.status (generationState w) = Processing.
Proof.
  intros R H. pose proof (reachable_one_poller _ R) as (O1 & O2 & _).
  simpl in H.
  destruct (findTimer h (timers w)) as [t|] eqn:Ft; [|discriminate].
  destruct (_ && _); [|discriminate]. injection H as <-.
  apply findTimer_In in Ft. destruct Ft as [It _].
  unfold runCallback. destruct (callback t) eqn:Cb.
  - left. unfold setCurrentProgress; simpl.
    repeat (break_match; simpl); reflexivity.
  - right. exists generationId. split; [reflexivity|].
    pose proof (O1 t generationId It Cb) as Id.
    assert (Q : filter is_poll (timers w) <> []).
    { intros E. assert (X : In t (filter is_poll (timers w))).
      { apply filter_In. split; [exact It|].
        unfold is_poll. now rewrite Cb. }
      rewrite E in X. destruct X. }
    unfold pollers in O2. rewrite Id in O2.
    destruct (App.status (generationState w));
      try (destruct (filter is_poll (timers w)); [now elim Q|discriminate]).
    destruct generationId;
      [destruct (filter is_poll (timers w)); [now elim Q|discriminate]|].
    splits; auto. discriminate.
  - left. now rewrite requests_render.
Qed.

Lemma status_query_is_for_current_job_witness :
  reachable (after query_in_flight) /\
  step (after query_in_flight) (TimerFires 1 0) =
    Some (after (query_in_flight ++ [TimerFires 1 0])) /\
  requests (after (query_in_flight ++ [TimerFires 1 0])) =
    requests (after query_in_flight) ++ [GetGeneration "abc123"] /\
  App.id (generationState (after query_in_flight)) = Some "abc123".
Proof.
  assert (R : reachable (after query_in_flight))
    by (apply (reachable_after query_in_flight); vm_compute; reflexivity).
  assert (S : step (after query_in_flight) (TimerFires 1 0) =
              Some (after (query_in_flight ++ [TimerFires 1 0])))
    by (vm_compute; reflexivity).
  split; [exact R|]. split; [exact S|].
  destruct (status_query_is_for_current_job _ _ _ _ R S)
    as [E|(gid & E & Id & _)].
  - exfalso. revert E. vm_compute. discriminate.
  - assert (G : gid = "abc123").
    { revert Id. vm_compute. congruence. }
    subst gid. split; [exact E|exact Id].
Defined.

(** ** An accepted job without an id *)

Lemma sims_step w e w' :
  Forall (fun t => callback t = SimulateProgress) (timers w) ->
  quiet e = true -> step w e = Some w' ->
  generationState w' = generationState w /\
  requests w' = requests w /\
  Forall (fun t => callback t = SimulateProgress) (timers w').
Proof.
  intros F Q H. destruct e; try discriminate; simpl in H.
  - destruct (findTimer h (timers w)) as [t|] eqn:Ft; [|discriminate].
    destruct (_ && _); [|discriminate]. injection H as <-.
    apply findTimer_In in Ft. destruct Ft as [It _].
    assert (F1 : Forall (fun u => callback u = SimulateProgress)
                   (reschedule t (timers w))).
    { rewrite Forall_forall in *. intros u Iu.
      apply reschedule_callbacks in Iu. destruct Iu as (v & Iv & <- & _).
      auto. }
    assert (Cb : callback t = SimulateProgress)
      by (rewrite Forall_forall in F; auto).
    rewrite Cb. unfold runCallback. simpl generationProgress.
    destruct (generationProgress w) as [g|] eqn:G; [|splits; auto].
    destruct (GenerationProgress.simulate rnd
                (GenerationProgress.currentProgress g)) as [p clear].
    unfold setCurrentProgress. simpl generationProgress. rewrite G.
    destruct clear; simpl; splits; auto.
    rewrite Forall_forall in *. intros u Iu.
    apply (In_clearTimer (Some h)) in Iu. apply F1. tauto.
  - destruct (nth_error (polls w) n); [|discriminate].
    assert (E : w' = set_polls (remove_nth n (polls w)) w).
    { unfold handlePollReply in H. destruct r; simpl in H; try congruence.
      simpl in Q. destruct (String.eqb status "completed"); [discriminate|].
      destruct (String.eqb status "failed"); [discriminate|].
      simpl in H. congruence. }
    subst w'. splits; auto.
  - destruct (_ && _); [|discriminate]. injection H as <-. splits; auto.
Qed.

(** X3: when the provider accepts a submission but answers with an empty
    job id, the status becomes 'processing' and no poller is started:
    as long as only time, timers and non-terminal replies happen, the
    status stays 'processing', the timer table never holds a poll
    interval or a timeout, and no status query is ever sent.  Such a
    session does not time out. *)
Theorem empty_job_id_never_polls w n w0 es w' :
  reachable w ->
  step w (SubmitResponse n (SubmitOk "")) = Some w0 ->
  forallb quiet es = true ->
  run w0 es = Some w' ->
  App.status (generationState w') = Processing /\
  App.id (generationState w') = Some "" /\
  Forall (fun t => callback t = SimulateProgress) (timers w') /\
  requests w' = requests w0.
Proof.
  intros R H Q Hr.
  assert (S0 : generationState w0 =
               App.handleGenerationStart "" (generationState w) /\
               Forall (fun t => callback t = SimulateProgress) (timers w0)).
  { pose proof (reachable_inv _ R) as (V & _). unfold step in H.
    destruct (nth_error (submits w) n); [|discriminate]. injection H as <-.
    set (w1 := set_generationState _ _).
    destruct (render_shape w1 V) as (sims & p & E & F).
    rewrite generationState_render. split; [reflexivity|].
    rewrite E. simpl. now rewrite app_nil_r. }
  destruct S0 as [G0 F0].
  assert (X : generationState w' = generationState w0 /\
              requests w' = requests w0 /\
              Forall (fun t => callback t = SimulateProgress) (timers w')).
  { clear H G0. revert w0 F0 Hr.
    induction es as [|e es IH]; intros w0 F0 Hr; simpl in *.
    - injection Hr as <-. auto.
    - apply andb_true_iff in Q. destruct Q as [Qe Qs].
      destruct (step w0 e) as [w1|] eqn:S1; [|discriminate].
      destruct (sims_step _ _ _ F0 Qe S1) as (A & B & C).
      destruct (IH Qs w1 C Hr) as (A' & B' & C').
      splits; auto; congruence. }
  destruct X as (A & B & C). rewrite A, G0. splits; auto.
Qed.

Lemma empty_job_id_never_polls_witness :
  reachable (after submitted) /\
  step (after submitted) (SubmitResponse 0 (SubmitOk "")) =
    Some (after accepted_without_id) /\
  forallb quiet four_hundred_seconds = true /\
  run (after accepted_without_id) four_hundred_seconds =
    Some (after (accepted_without_id ++ four_hundred_seconds)) /\
  now (after (accepted_without_id ++ four_hundred_seconds)) = 400000 /\
  App.status
    (generationState (after (accepted_without_id ++ four_hundred_seconds))) =
    Processing.
Proof.
  assert (R : reachable (after submitted))
    by (apply (reachable_after submitted); vm_compute; reflexivity).
  assert (S : step (after submitted) (SubmitResponse 0 (SubmitOk "")) =
              Some (after accepted_without_id))
    by (vm_compute; reflexivity).
  assert (Q : forallb quiet four_hundred_seconds = true)
    by (vm_compute; reflexivity).
  assert (Hr : run (after accepted_without_id) four_hundred_seconds =
               Some (after (accepted_without_id ++ four_hundred_seconds)))
    by (vm_compute; reflexivity).
  split; [exact R|]. split; [exact S|]. split; [exact Q|].
  split; [exact Hr|]. split; [vm_compute; reflexivity|].
  exact (proj1 (empty_job_id_never_polls _ _ _ _ _ R S Q Hr)).
Defined.

(** ** From the file chooser to the POST *)

Lemma In_remove_nth {A : Type} (x : A) n l :
  In x (remove_nth n l) -> In x l.
Proof.
  revert n. induction l as [|a l IH]; intros n I; [destruct n; exact I|].
  destruct n as [|n]; simpl in I; [now right|].
  destruct I as [I|I]; [now left|right; eauto].
Qed.

Lemma nth_error_snoc {A : Type} (l : list A) (x : A) :
  nth_error (l ++ [x]) (List.length l) = Some x.
Proof. induction l; simpl; auto. Qed.

Lemma remove_nth_snoc {A : Type} (l : list A) (x : A) :
  remove_nth (List.length l) (l ++ [x]) = l.
Proof. induction l; simpl; [reflexivity|]. now rewrite IHl. Qed.

Lemma pending_render w :
  readers (render w) = readers w /\ uploads (render w) = uploads w /\
  requests (render w) = requests w.
Proof. pose proof (render_frame w). tauto. Qed.

(** One step keeps the images on their way within [S], provided a file
    that is offered and passes validation is in [S]. *)
Lemma step_images (S : string -> Prop) w e w' :
  images_from S w ->
  (forall file rest, e = SelectFiles (file :: rest) ->
     PhotoUpload.validate file = None -> S (PhotoUpload.dataURL file)) ->
  step w e = Some w' ->
  images_from S w'.
Proof.
  intros (Ir & Iu & Iq) Hs H.
  assert (Same : forall w2, readers w2 = readers w -> uploads w2 = uploads w ->
                   requests w2 = requests w -> images_from S w2).
  { intros w2 E1 E2 E3. unfold images_from. rewrite E1, E2, E3. auto. }
  assert (SameR : forall w2, readers w2 = readers w ->
                    uploads w2 = uploads w -> requests w2 = requests w ->
                    images_from S (render w2)).
  { intros w2 E1 E2 E3. destruct (pending_render w2) as (A & B & C).
    apply Same; congruence. }
  destruct e; simpl in H.
  - injection H as <-. unfold handleDrop.
    destruct (disabled w); [apply Same; reflexivity|].
    unfold handleFiles. destruct files as [|file rest];
      [apply Same; reflexivity|].
    destruct (PhotoUpload.validate file) eqn:Hv; [apply Same; reflexivity|].
    unfold images_from; simpl. splits; auto.
    intros i c I. apply in_app_or in I. destruct I as [I|[[= <- <-]|[]]].
    + eauto.
    + eapply Hs; eauto.
  - destruct (nth_error (readers w) n) as [[i c]|] eqn:N; [|discriminate].
    injection H as <-. apply nth_error_In in N.
    destruct (pending_render
                (onload i c (set_readers (remove_nth n (readers w)) w)))
      as (A & B & C).
    unfold images_from. rewrite A, B, C. simpl. splits; auto.
    + intros i' c' I. apply In_remove_nth in I. eauto.
    + intros i' c' I. apply in_app_or in I.
      destruct I as [I|[[= <- <-]|[]]]; eauto.
  - destruct (nth_error (uploads w) n) as [[i c]|] eqn:N; [|discriminate].
    apply nth_error_In in N. destruct ok; injection H as <-.
    + unfold images_from; simpl. splits; auto.
      * intros i' c' I. apply In_remove_nth in I. eauto.
      * intros body I. apply in_app_or in I.
        destruct I as [I|[[= <-]|[]]]; eauto.
    + destruct (pending_render
                  (startFailed (set_uploads (remove_nth n (uploads w)) w)))
        as (A & B & C).
      unfold images_from. rewrite A, B, C. simpl. splits; auto.
      intros i' c' I. apply In_remove_nth in I. eauto.
  - destruct (nth_error (submits w) n); [|discriminate].
    injection H as <-. apply SameR; destruct r; reflexivity.
  - destruct (findTimer h (timers w)) as [t|]; [|discriminate].
    destruct (_ && _); [|discriminate]. injection H as <-.
    unfold runCallback. destruct (callback t).
    + apply Same; unfold setCurrentProgress; simpl;
        repeat (break_match; simpl); reflexivity.
    + unfold images_from; simpl. splits; auto.
      intros body I. apply in_app_or in I.
      destruct I as [I|[I|[]]]; [eauto|discriminate].
    + apply SameR; reflexivity.
  - destruct (nth_error (polls w) n); [|discriminate].
    unfold handlePollReply in H.
    destruct r; simpl in H; try (injection H as <-; apply Same; reflexivity).
    destruct (String.eqb status "completed"); simpl in H.
    + injection H as <-. apply SameR;
        unfold setStatusMessage, setCurrentProgress; simpl;
        repeat (break_match; simpl); reflexivity.
    + destruct (String.eqb status "failed"); simpl in H; injection H as <-;
        [apply SameR|apply Same]; reflexivity.
  - destruct (_ && _); [|discriminate]. injection H as <-.
    apply Same; reflexivity.
  - destruct (disabled w); [injection H as <-; apply Same; reflexivity|].
    destruct (String.eqb c _); injection H as <-;
      [apply Same|apply SameR]; reflexivity.
  - destruct (resetOffered w); [|discriminate]. injection H as <-.
    apply SameR; reflexivity.
Qed.

Lemma run_images (S : string -> Prop) es : forall w w',
  images_from S w ->
  (forall file, In file (offered es) ->
     PhotoUpload.validate file = None -> S (PhotoUpload.dataURL file)) ->
  run w es = Some w' ->
  images_from S w'.
Proof.
  induction es as [|e es IH]; intros w w' I Hs H; simpl in H.
  - injection H as <-. exact I.
  - destruct (step w e) as [w1|] eqn:S1; [|discriminate].
    apply (IH w1 w'); auto.
    + apply (step_images S w e w1); auto.
      intros file rest -> Hv. apply Hs; [|exact Hv]. now left.
    + intros file If. apply Hs.
      destruct e as [[|f fs]| | | | | | | |]; simpl; auto.
Qed.

(** X4: nothing reaches the backend that did not pass validation.  In
    any session from the initial state, every generation request posted
    carries the image read from a file that was offered in that session
    and passed both checks of [handleFiles] (image type, at most
    10 MiB). *)
Theorem only_validated_files_are_posted es w body :
  run initialWorld es = Some w ->
  In (PostGenerate body) (requests w) ->
  exists file character,
    In file (offered es) /\
    PhotoUpload.validate file = None /\
    body = App.formData (PhotoUpload.dataURL file) character.
Proof.
  intros H I.
  assert (X : images_from (validated es) w).
  { apply (run_images (validated es) es initialWorld w); auto.
    - unfold images_from; simpl. splits; intros; contradiction.
    - intros file If Hv. exists file. auto. }
  destruct X as (_ & _ & X). destruct (X body I) as (i & c & -> & f & A & B & <-).
  eauto.
Qed.

Lemma only_validated_files_are_posted_witness :
  run initialWorld ([SelectFiles [png12]; SelectFiles [pdf12]] ++ submitted) =
    Some (after ([SelectFiles [png12]; SelectFiles [pdf12]] ++ submitted)) /\
  In (PostGenerate (App.formData (PhotoUpload.dataURL jpeg5) "sailor-moon"))
     (requests (after ([SelectFiles [png12]; SelectFiles [pdf12]]
                       ++ submitted))) /\
  exists file character,
    In file (offered ([SelectFiles [png12]; SelectFiles [pdf12]]
                      ++ submitted)) /\
    PhotoUpload.validate file = None /\
    App.formData (PhotoUpload.dataURL jpeg5) "sailor-moon" =
      App.formData (PhotoUpload.dataURL file) character.
Proof.
  assert (H : run initialWorld
                ([SelectFiles [png12]; SelectFiles [pdf12]] ++ submitted) =
              Some (after ([SelectFiles [png12]; SelectFiles [pdf12]]
                           ++ submitted)))
    by (vm_compute; reflexivity).
  assert (I : In (PostGenerate
                    (App.formData (PhotoUpload.dataURL jpeg5) "sailor-moon"))
                 (requests (after ([SelectFiles [png12]; SelectFiles [pdf12]]
                                   ++ submitted))))
    by (vm_compute; left; reflexivity).
  split; [exact H|]. split; [exact I|].
  exact (only_validated_files_are_posted _ _ _ H I).
Defined.

Lemma selectedCharacter_render w :
  selectedCharacter (render w) = selectedCharacter w.
Proof. apply render_frame. Qed.

(** X5: the character sent with a photo is the one that was selected
    when the file was chosen.  If the user picks a valid file while the
    upload area is enabled and changes the character before the
    FileReader has delivered, the POST still carries the earlier
    character: [onImageUpload] is the closure of the render in which the
    file was chosen. *)
Theorem character_is_captured_with_the_file w file c' :
  PhotoUpload.validate file = None ->
  App.status (generationState w) <> Processing ->
  exists w',
    run w [SelectFiles [file]; SelectCharacter c';
           ReaderLoad (List.length (readers w));
           ImageFetched (List.length (uploads w)) true] = Some w' /\
    selectedCharacter w' = c' /\
    requests w' =
      requests w ++
      [PostGenerate
         (App.formData (PhotoUpload.dataURL file) (selectedCharacter w))].
Proof.
  intros Hv Hs.
  assert (D : disabled w = false).
  { unfold disabled. destruct (App.status (generationState w)); auto.
    now elim Hs. }
  unfold run. simpl step at 1. unfold handleDrop, handleFiles.
  rewrite D, Hv.
  set (w1 := set_readers _ _).
  assert (A1 : readers w1 =
               readers w ++ [(PhotoUpload.dataURL file, selectedCharacter w)]
               /\ uploads w1 = uploads w /\ requests w1 = requests w /\
               selectedCharacter w1 = selectedCharacter w /\
               disabled w1 = false) by (splits; auto).
  clearbody w1. destruct A1 as (R1 & U1 & Q1 & C1 & D1).
  assert (A2 : exists w2, step w1 (SelectCharacter c') = Some w2 /\
               readers w2 = readers w1 /\ uploads w2 = uploads w1 /\
               requests w2 = requests w1 /\ selectedCharacter w2 = c').
  { simpl. rewrite D1. destruct (String.eqb_spec c' (selectedCharacter w1)).
    - exists w1. splits; auto.
    - eexists. split; [reflexivity|].
      destruct (render_frame (set_selectedCharacter c' w1))
        as (_ & A & _ & _ & _ & B & C & _ & _ & E).
      rewrite A, B, C, E. splits; reflexivity. }
  destruct A2 as (w2 & S2 & R2 & U2 & Q2 & C2). rewrite S2.
  assert (A3 : exists w3, step w2 (ReaderLoad (List.length (readers w))) =
                          Some w3 /\
               uploads w3 =
                 uploads w ++
                 [(PhotoUpload.dataURL file, selectedCharacter w)] /\
               requests w3 = requests w /\ selectedCharacter w3 = c').
  { simpl. rewrite R2, R1, nth_error_snoc. eexists. split; [reflexivity|].
    match goal with |- context [render ?x] =>
      destruct (render_frame x) as (_ & A & _ & _ & _ & _ & C & _ & _ & E)
    end.
    rewrite A, C, E. simpl. rewrite U2, U1, Q2, Q1. splits; auto. }
  destruct A3 as (w3 & S3 & U3 & Q3 & C3). rewrite S3.
  simpl. rewrite U3, nth_error_snoc. eexists. split; [reflexivity|].
  simpl. rewrite Q3. split; [exact C3|reflexivity].
Qed.

Lemma character_is_captured_with_the_file_witness :
  PhotoUpload.validate jpeg5 = None /\
  App.status (generationState initialWorld) <> Processing /\
  exists w',
    run initialWorld
      [SelectFiles [jpeg5]; SelectCharacter "zelda"; ReaderLoad 0;
       ImageFetched 0 true] = Some w' /\
    selectedCharacter w' = "zelda" /\
    requests w' =
      [PostGenerate (App.formData (PhotoUpload.dataURL jpeg5) "sailor-moon")].
Proof.
  assert (Hv : PhotoUpload.validate jpeg5 = None) by reflexivity.
  assert (Hs : App.status (generationState initialWorld) <> Processing)
    by discriminate.
  split; [exact Hv|]. split; [exact Hs|].
  exact (character_is_captured_with_the_file initialWorld jpeg5 "zelda" Hv Hs).
Defined.

(** ** App.tsx: what the right column shows *)

Lemma reachable_payload w :
  reachable w ->
  (App.status (generationState w) = Completed ->
   exists r, App.result (generationState w) = Some r /\ r <> "") /\
  (App.status (generationState w) = Error ->
   exists m, App.error (generationState w) = Some m /\
             In m [msg_start_failed; msg_generation_failed; msg_timed_out]).
Proof.
  induction 1 as [|w e w' _ IH H].
  - split; discriminate.
  - apply step_transition in H.
    destruct H as [e|n|n gid|n st url|e m Im _ _|_]; simpl.
    + exact IH.
    + split; discriminate.
    + split; discriminate.
    + split; [|discriminate]. intros _. eexists. split; [reflexivity|].
      apply or_else_nonempty. discriminate.
    + split; [discriminate|]. intros _. exists m. split; [reflexivity|].
      exact Im.
    + split; discriminate.
Qed.

(** X6: in every reachable state the right column of App shows exactly
    one block.  In particular a 'completed' state always shows the
    result (its [result] is never empty, so the guard
    [status === 'completed' && result] holds); an 'error' state shows
    one of the three messages the code sets, never the default text
    "An unexpected error occurred"; and the progress block is on the
    page exactly when GenerationProgress is mounted. *)
Theorem right_column_shows_one_block w :
  reachable w ->
  (exists p, rightColumn w = [p]) /\
  (App.status (generationState w) = Completed ->
   exists r, r <> "" /\
     rightColumn w = [ResultPanel r (uploadedImage w) (selectedCharacter w)])
  /\
  (forall m, In (ErrorPanel m) (rightColumn w) ->
     In m [msg_start_failed; msg_generation_failed; msg_timed_out]) /\
  (generationProgress w <> None <->
   rightColumn w =
     [ProgressPanel (App.status (generationState w))
        (App.progress (generationState w)) (App.id (generationState w))]).
Proof.
  intros R. destruct (reachable_payload _ R) as [Pc Pe].
  destruct (reachable_inv _ R) as (V & S & _).
  unfold rightColumn. unfold in_sync in S. unfold view_ok in V.
  assert (Off : rendersProgress (App.status (generationState w)) = false ->
                generationProgress w = None).
  { intros E. destruct (generationProgress w); [|reflexivity].
    rewrite <- S in E. destruct V as (_ & _ & _ & [X|X]); rewrite X in E;
      discriminate. }
  assert (On : rendersProgress (App.status (generationState w)) = true ->
               generationProgress w <> None).
  { intros E. destruct (generationProgress w); congruence. }
  destruct (App.status (generationState w)) eqn:St; simpl.
  - split; [eauto|]. split; [discriminate|]. split.
    + intros m [I|[]]. discriminate.
    + rewrite (Off eq_refl). split; [congruence|discriminate].
  - split; [eauto|]. split; [discriminate|]. split.
    + intros m [I|[]]. discriminate.
    + split; [reflexivity|]. intros _. apply On. reflexivity.
  - split; [eauto|]. split; [discriminate|]. split.
    + intros m [I|[]]. discriminate.
    + split; [reflexivity|]. intros _. apply On. reflexivity.
  - destruct (Pc eq_refl) as (r & -> & Nr).
    destruct r as [|c s]; [now elim Nr|]. simpl.
    split; [eauto|]. split; [eauto|]. split.
    + intros m [I|[]]. discriminate.
    + rewrite (Off eq_refl). split; [congruence|discriminate].
  - destruct (Pe eq_refl) as (m & -> & Im).
    assert (Nm : or_else (Some m) "An unexpected error occurred" = m).
    { simpl in Im. destruct Im as [<-|[<-|[<-|[]]]]; reflexivity. }
    rewrite Nm. split; [eauto|]. split; [discriminate|]. split.
    + intros m' [[= <-]|[]]. exact Im.
    + rewrite (Off eq_refl). split; [congruence|discriminate].
Qed.

Lemma right_column_shows_one_block_witness :
  reachable (after (accepted ++ provider_completes)) /\
  App.status (generationState (after (accepted ++ provider_completes))) =
    Completed /\
  exists r, r <> "" /\
    rightColumn (after (accepted ++ provider_completes)) =
      [ResultPanel r
         (uploadedImage (after (accepted ++ provider_completes)))
         (selectedCharacter (after (accepted ++ provider_completes)))].
Proof.
  assert (R : reachable (after (accepted ++ provider_completes)))
    by (apply (reachable_after (accepted ++ provider_completes));
        vm_compute; reflexivity).
  assert (C : App.status
                (generationState (after (accepted ++ provider_completes))) =
              Completed) by (vm_compute; reflexivity).
  split; [exact R|]. split; [exact C|].
  exact (proj1 (proj2 (right_column_shows_one_block _ R)) C).
Defined.

(** ** Choosing a character *)

Lemma render_stable w :
  inv w -> App.status (generationState w) <> Processing -> render w = w.
Proof.
  intros I N. pose proof (inv_not_processing _ I N) as T.
  destruct I as (V & S & _). unfold view_ok, in_sync in *. unfold render.
  destruct (App.status (generationState w)) eqn:St; simpl;
    try (now elim N);
    try (destruct (generationProgress w) as [g|] eqn:G; [|reflexivity];
         destruct V as (_ & _ & _ & [X|X]); congruence).
  destruct (generationProgress w) as [g|] eqn:G; [|discriminate].
  rewrite S. simpl. destruct V as ((_ & Hh) & _ & U & _).
  destruct (U S) as [Ui Up]. rewrite Up in Hh.
  destruct (GenerationProgress.timeout g) eqn:Gt; [now elim Hh|].
  rewrite Up, T. simpl.
  destruct w as [gs sc ui pu gp ts nt nw rd up sb pl rq].
  destruct g as [gst cp msg hi hp ht]. simpl in *. subst.
  reflexivity.
Qed.

(** X7: choosing a character changes the selection and nothing else.
    In every reachable state a click on a character button is ignored
    while the status is 'processing', and otherwise only sets
    [selectedCharacter]: the render it causes leaves the generation
    state, the progress view, the timers and all pending work as they
    were. *)
Theorem selecting_a_character_only_sets_the_selection w c :
  reachable w ->
  step w (SelectCharacter c) =
    Some (if disabled w then w else set_selectedCharacter c w).
Proof.
  intros R. simpl. unfold disabled.
  destruct (Status_eqb (App.status (generationState w)) Processing) eqn:D;
    [reflexivity|].
  destruct (String.eqb_spec c (selectedCharacter w)) as [->|Ne].
  - destruct w; reflexivity.
  - f_equal. apply render_stable.
    + exact (reachable_inv _ R).
    + simpl. intros E. rewrite E in D. discriminate.
Qed.

Lemma selecting_a_character_only_sets_the_selection_witness :
  reachable (after submitted) /\
  step (after submitted) (SelectCharacter "zelda") =
    Some (set_selectedCharacter "zelda" (after submitted)).
Proof.
  assert (R : reachable (after submitted))
    by (apply (reachable_after submitted); vm_compute; reflexivity).
  split; [exact R|].
  exact (selecting_a_character_only_sets_the_selection _ "zelda" R).
Defined.

(** ** The uploaded image and its preview *)

Lemma step_preview w e w' :
  step w e = Some w' ->
  (PhotoUpload.preview (photoUpload w') = PhotoUpload.preview (photoUpload w)
   /\ (uploadedImage w' = uploadedImage w \/
       e = Reset /\ uploadedImage w' = None)) \/
  (exists n i, e = ReaderLoad n /\
     PhotoUpload.preview (photoUpload w') = Some i /\
     uploadedImage w' = Some i).
Proof.
  assert (RF : forall w2, photoUpload (render w2) = photoUpload w2 /\
                          uploadedImage (render w2) = uploadedImage w2).
  { intros w2. pose proof (render_frame w2). tauto. }
  destruct e; simpl; intros H.
  - injection H as <-. left. unfold handleDrop, handleFiles.
    repeat break_match; simpl; auto.
  - destruct (nth_error (readers w) n) as [[i c]|]; [|discriminate].
    injection H as <-. right. exists n, i. split; [reflexivity|].
    destruct (RF (onload i c (set_readers (remove_nth n (readers w)) w)))
      as [-> ->]. split; reflexivity.
  - destruct (nth_error (uploads w) n) as [[i c]|]; [|discriminate].
    left. destruct ok; injection H as <-; [simpl; auto|].
    destruct (RF (startFailed (set_uploads (remove_nth n (uploads w)) w)))
      as [-> ->]. simpl; auto.
  - destruct (nth_error (submits w) n); [|discriminate].
    injection H as <-. left.
    match goal with |- context [render ?x] => destruct (RF x) as [-> ->] end.
    destruct r; simpl; auto.
  - destruct (findTimer h (timers w)) as [t|]; [|discriminate].
    destruct (_ && _); [|discriminate]. injection H as <-. left.
    unfold runCallback. destruct (callback t).
    + unfold setCurrentProgress; simpl.
      repeat (break_match; simpl); auto.
    + simpl; auto.
    + match goal with |- context [render ?x] =>
        destruct (RF x) as [-> ->] end.
      simpl; auto.
  - destruct (nth_error (polls w) n); [|discriminate]. left.
    unfold handlePollReply in H.
    destruct r; simpl in H; try (injection H as <-; simpl; auto).
    destruct (String.eqb status "completed"); simpl in H.
    + injection H as <-.
      match goal with |- context [render ?x] =>
        destruct (RF x) as [-> ->] end.
      unfold setStatusMessage, setCurrentProgress. simpl.
      repeat (break_match; simpl); auto.
    + destruct (String.eqb status "failed"); simpl in H; injection H as <-.
      * match goal with |- context [render ?x] =>
          destruct (RF x) as [-> ->] end.
        simpl; auto.
      * simpl; auto.
  - destruct (_ && _); [|discriminate]. injection H as <-. left. simpl; auto.
  - left. destruct (disabled w); [injection H as <-; auto|].
    destruct (String.eqb c _); injection H as <-; [auto|].
    match goal with |- context [render ?x] => destruct (RF x) as [-> ->] end.
    simpl; auto.
  - destruct (resetOffered w); [|discriminate]. injection H as <-. left.
    match goal with |- context [render ?x] => destruct (RF x) as [-> ->] end.
    simpl; auto.
Qed.

Lemma reachable_uploadedImage w :
  reachable w ->
  uploadedImage w = None \/
  uploadedImage w = PhotoUpload.preview (photoUpload w).
Proof.
  induction 1 as [|w e w' _ IH H]; [now left|].
  destruct (step_preview _ _ _ H)
    as [(P & [U|[_ U]])|(n & i & _ & P & U)].
  - rewrite P, U. exact IH.
  - now left.
  - right. congruence.
Qed.

(** X8: the image App holds for the comparison view is always the one
    the upload area previews, or none.  No step ever clears the
    preview: a reset ("Try Again", "Generate Another") sets App's
    [uploadedImage] back to null but leaves the old photo in the
    preview of the upload area. *)
Theorem preview_outlives_reset w e w' :
  reachable w ->
  step w e = Some w' ->
  (uploadedImage w' = None \/
   uploadedImage w' = PhotoUpload.preview (photoUpload w')) /\
  (PhotoUpload.preview (photoUpload w) <> None ->
   PhotoUpload.preview (photoUpload w') <> None) /\
  (e = Reset ->
   uploadedImage w' = None /\
   PhotoUpload.preview (photoUpload w') =
     PhotoUpload.preview (photoUpload w)).
Proof.
  intros R H. split; [|split].
  - exact (reachable_uploadedImage _ (reach_step _ _ _ R H)).
  - destruct (step_preview _ _ _ H) as [(P & _)|(n & i & _ & P & _)];
      rewrite P; [auto|discriminate].
  - intros ->.
    destruct (step_preview _ _ _ H)
      as [(P & [U|[_ U]])|(n & i & E & _)]; try discriminate.
    + simpl in H. destruct (resetOffered w); [|discriminate].
      injection H as <-. split; [|exact P].
      pose proof (render_frame (resetGeneration w)) as (_ & _ & X & _).
      rewrite X. reflexivity.
    + auto.
Qed.

Lemma preview_outlives_reset_witness :
  reachable (after (accepted ++ provider_completes)) /\
  step (after (accepted ++ provider_completes)) Reset =
    Some (after (accepted ++ provider_completes ++ [Reset])) /\
  uploadedImage (after (accepted ++ provider_completes ++ [Reset])) = None /\
  PhotoUpload.preview
    (photoUpload (after (accepted ++ provider_completes ++ [Reset]))) =
    PhotoUpload.preview
      (photoUpload (after (accepted ++ provider_completes))).
Proof.
  assert (R : reachable (after (accepted ++ provider_completes)))
    by (apply (reachable_after (accepted ++ provider_completes));
        vm_compute; reflexivity).
  assert (S : step (after (accepted ++ provider_completes)) Reset =
              Some (after (accepted ++ provider_completes ++ [Reset])))
    by (vm_compute; reflexivity).
  split; [exact R|]. split; [exact S|].
  exact (proj2 (proj2 (preview_outlives_reset _ _ _ R S)) eq_refl).
Defined.

(** ** GenerationProgress: the label and the colour of the bar *)

Lemma getProgressColor_mono p q :
  (p <= q)%Q ->
  (GenerationProgress.getProgressColor p = "bg-green-500" ->
   GenerationProgress.getProgressColor q = "bg-green-500") /\
  (GenerationProgress.getProgressColor p = "bg-yellow-500" ->
   GenerationProgress.getProgressColor q <> "bg-blue-500").
Proof.
  intros L. unfold GenerationProgress.getProgressColor.
  destruct (Qle_bool 30 p) eqn:P3; destruct (Qle_bool 70 p) eqn:P7;
    destruct (Qle_bool 30 q) eqn:Q3; destruct (Qle_bool 70 q) eqn:Q7;
    simpl; split; intros; try discriminate; try reflexivity; exfalso;
    repeat match goal with
    | H : Qle_bool _ _ = true |- _ => apply Qle_bool_iff in H
    | H : Qle_bool ?a ?b = false |- _ =>
        assert (~ (a <= b)%Q)
          by (intros X; apply Qle_bool_iff in X; congruence); clear H
    end; lra.
Qed.

(** [step] is [updates] followed by the render of App, when there is
    one. *)
Lemma step_updates w e :
  step w e =
  match updates w e with
  | Some (w1, true) => Some (render w1)
  | Some (w1, false) => Some w1
  | None => None
  end.
Proof.
  destruct e as [files|n|n ok|n r|h rnd|n r|dt|c|]; simpl.
  - reflexivity.
  - destruct (nth_error (readers w) n) as [[i c]|]; reflexivity.
  - destruct (nth_error (uploads w) n) as [[i c]|]; [|reflexivity].
    destruct ok; reflexivity.
  - destruct (nth_error (submits w) n); reflexivity.
  - destruct (findTimer h (timers w)) as [t|]; [|reflexivity].
    destruct ((due t =? now w) && random_ok rnd); [|reflexivity].
    destruct (callback t); reflexivity.
  - destruct (nth_error (polls w) n) as [p|]; [|reflexivity].
    destruct (handlePollReply p r _) as [w1 [|]]; reflexivity.
  - destruct ((0 <? dt) && _); reflexivity.
  - destruct (disabled w); [reflexivity|].
    destruct (String.eqb c (selectedCharacter w)); reflexivity.
  - destruct (resetOffered w); reflexivity.
Qed.

(** The render of App that follows an event finds the cells of
    GenerationProgress as they were before the event, unless it takes
    the component off the page. *)
Lemma updates_committed w e w1 f :
  updates w e = Some (w1, true) ->
  committed w1 = Some f ->
  generationProgress w1 = generationProgress w.
Proof.
  unfold committed. intros U C.
  destruct e as [files|n|n ok|n r|h rnd|n r|dt|c|]; simpl in U.
  - discriminate.
  - destruct (nth_error (readers w) n) as [[i c]|]; [|discriminate].
    injection U as <-. reflexivity.
  - destruct (nth_error (uploads w) n) as [[i c]|]; [|discriminate].
    destruct ok; [discriminate|]. injection U as <-. discriminate.
  - destruct (nth_error (submits w) n); [|discriminate].
    injection U as <-. destruct r; reflexivity.
  - destruct (findTimer h (timers w)) as [t|]; [|discriminate].
    destruct ((due t =? now w) && random_ok rnd); [|discriminate].
    destruct (callback t); try discriminate.
    injection U as <-. discriminate.
  - destruct (nth_error (polls w) n) as [p|]; [|discriminate].
    destruct r as [| | |st url]; try discriminate. simpl in U.
    destruct (String.eqb st "completed").
    + injection U as <-. discriminate.
    + destruct (String.eqb st "failed"); [|discriminate].
      injection U as <-. discriminate.
  - destruct ((0 <? dt) && _); discriminate.
  - destruct (disabled w); [discriminate|].
    destruct (String.eqb c (selectedCharacter w)); [discriminate|].
    injection U as <-. reflexivity.
  - destruct (resetOffered w); [|discriminate].
    injection U as <-. discriminate.
Qed.

(** X9: what the progress bar shows.  Once the effects of a render have
    run and their updates are committed (the states of the sessions),
    the width of the bar is at least 10 and strictly below 100 and the
    rounded percentage in its label is between 10 and 100; during
    'uploading' the label then reads 10 and the bar is blue.  The commit
    that comes first, before the effects run, shows something else: the
    cells as the event found them, that is 0 and an empty message when
    the component is newly mounted ([useState(0)]) and the previous
    width otherwise, also during 'uploading'.  Over all commits the
    label is between 0 and 100. *)
Theorem progress_bar_bounds w :
  reachable w ->
  (forall g, generationProgress w = Some g ->
     (10 <= GenerationProgress.currentProgress g)%Q /\
     (GenerationProgress.currentProgress g < 100)%Q /\
     10 <= GenerationProgress.round (GenerationProgress.currentProgress g)
        <= 100 /\
     (App.status (generationState w) = Uploading ->
      GenerationProgress.round (GenerationProgress.currentProgress g) = 10 /\
      GenerationProgress.getProgressColor
        (GenerationProgress.currentProgress g) = "bg-blue-500")) /\
  (forall e w1 f,
     updates w e = Some (w1, true) ->
     committed w1 = Some f ->
     step w e = Some (render w1) /\
     GenerationProgress.status f = App.status (generationState w1) /\
     match generationProgress w with
     | None =>
         GenerationProgress.currentProgress f = 0%Q /\
         GenerationProgress.statusMessage f = "" /\
         GenerationProgress.round (GenerationProgress.currentProgress f) = 0
     | Some g =>
         GenerationProgress.currentProgress f =
           GenerationProgress.currentProgress g /\
         GenerationProgress.statusMessage f =
           GenerationProgress.statusMessage g /\
         10 <= GenerationProgress.round
                 (GenerationProgress.currentProgress f) <= 100
     end).
Proof.
  intros R.
  assert (A : forall g, generationProgress w = Some g ->
     (10 <= GenerationProgress.currentProgress g)%Q /\
     (GenerationProgress.currentProgress g < 100)%Q /\
     10 <= GenerationProgress.round (GenerationProgress.currentProgress g)
        <= 100 /\
     (App.status (generationState w) = Uploading ->
      GenerationProgress.round (GenerationProgress.currentProgress g) = 10 /\
      GenerationProgress.getProgressColor
        (GenerationProgress.currentProgress g) = "bg-blue-500")).
  { intros g G. destruct (reachable_inv _ R) as (V & S & P).
    unfold view_ok, in_sync, progress_ok in *. rewrite G in *.
    destruct V as (_ & _ & _ & St). destruct P as [Pu Pp].
    assert (B : (10 <= GenerationProgress.currentProgress g)%Q /\
                (GenerationProgress.currentProgress g < 100)%Q).
    { destruct St as [E|E];
        [rewrite (Pu E); split; [apply Qle_refl|reflexivity]|].
      destruct (Pp E). split; lra. }
    destruct B as [B1 B2]. split; [exact B1|]. split; [exact B2|]. split.
    - unfold GenerationProgress.round. split.
      + change 10 with (Qfloor 10). apply Qfloor_resp_le. lra.
      + change 100 with (Qfloor (100 + (1 # 2))). apply Qfloor_resp_le. lra.
    - intros E. rewrite <- S in E. rewrite (Pu E). split; reflexivity. }
  split; [exact A|].
  intros e w1 f U C.
  pose proof (updates_committed _ _ _ _ U C) as G.
  split; [rewrite step_updates, U; reflexivity|].
  unfold committed in C. rewrite G in C.
  destruct (rendersProgress (App.status (generationState w1)));
    [|discriminate].
  injection C as <-. split; [reflexivity|].
  destruct (generationProgress w) as [g|] eqn:Gw; simpl.
  - split; [reflexivity|]. split; [reflexivity|]. apply (A g eq_refl).
  - splits; reflexivity.
Qed.

Lemma progress_bar_bounds_witness :
  reachable (after [SelectFiles [jpeg5]]) /\
  generationProgress (after [SelectFiles [jpeg5]]) = None /\
  (exists w1 f,
     updates (after [SelectFiles [jpeg5]]) (ReaderLoad 0) = Some (w1, true) /\
     committed w1 = Some f /\
     GenerationProgress.status f = Uploading /\
     GenerationProgress.round (GenerationProgress.currentProgress f) = 0) /\
  (exists g,
     generationProgress (after submitted) = Some g /\
     GenerationProgress.round (GenerationProgress.currentProgress g) = 10).
Proof.
  assert (R : reachable (after [SelectFiles [jpeg5]]))
    by (apply (reachable_after [SelectFiles [jpeg5]]);
        vm_compute; reflexivity).
  assert (R' : reachable (after submitted))
    by (apply (reachable_after submitted); vm_compute; reflexivity).
  split; [exact R|]. split; [vm_compute; reflexivity|]. split.
  - destruct (updates (after [SelectFiles [jpeg5]]) (ReaderLoad 0))
      as [[w1 [|]]|] eqn:U; try (vm_compute in U; discriminate).
    destruct (committed w1) as [f|] eqn:C.
    + exists w1, f. split; [reflexivity|]. split; [exact C|].
      destruct (proj2 (progress_bar_bounds _ R) _ _ _ U C) as (_ & St & F).
      assert (G : generationProgress (after [SelectFiles [jpeg5]]) = None)
        by (vm_compute; reflexivity).
      rewrite G in F. split; [|apply F].
      rewrite St. vm_compute in U. injection U as <-. reflexivity.
    + exfalso. vm_compute in U. injection U as <-.
      vm_compute in C. discriminate.
  - destruct (generationProgress (after submitted)) as [g|] eqn:G;
      [|vm_compute in G; discriminate].
    exists g. split; [reflexivity|].
    assert (St : App.status (generationState (after submitted)) = Uploading)
      by (vm_compute; reflexivity).
    exact (proj1 (proj2 (proj2 (proj2 (proj1 (progress_bar_bounds _ R')
                                         g G))) St)).
Defined.

(** X10: while the status stays 'processing' the colour of the bar never
    goes back: once green it stays green, once yellow it does not turn
    blue again. *)
Theorem progress_colour_never_goes_back w e w' g g' :
  reachable w ->
  step w e = Some w' ->
  App.status (generationState w) = Processing ->
  App.status (generationState w') = Processing ->
  generationProgress w = Some g ->
  generationProgress w' = Some g' ->
  (GenerationProgress.getProgressColor
     (GenerationProgress.currentProgress g) = "bg-green-500" ->
   GenerationProgress.getProgressColor
     (GenerationProgress.currentProgress g') = "bg-green-500") /\
  (GenerationProgress.getProgressColor
     (GenerationProgress.currentProgress g) = "bg-yellow-500" ->
   GenerationProgress.getProgressColor
     (GenerationProgress.currentProgress g') <> "bg-blue-500").
Proof.
  intros R H St St' G G'. apply getProgressColor_mono.
  exact (processing_step_progress _ _ _ _ _ (reachable_inv _ R) H St St' G G').
Qed.

Lemma progress_colour_never_goes_back_witness :
  (reachable (after six_seconds_in) /\
   step (after six_seconds_in) (TimerFires 0 (9 # 10)) =
     Some (after (six_seconds_in ++ [TimerFires 0 (9 # 10)])) /\
   barColour (after six_seconds_in) = Some "bg-yellow-500" /\
   barColour (after (six_seconds_in ++ [TimerFires 0 (9 # 10)])) <>
     Some "bg-blue-500") /\
  (reachable (after seven_seconds_in) /\
   step (after seven_seconds_in) (TimerFires 0 (9 # 10)) =
     Some (after (seven_seconds_in ++ [TimerFires 0 (9 # 10)])) /\
   barColour (after seven_seconds_in) = Some "bg-green-500" /\
   barColour (after (seven_seconds_in ++ [TimerFires 0 (9 # 10)])) =
     Some "bg-green-500").
Proof.
  assert (K : forall es p q,
            run initialWorld es = Some (after es) ->
            step (after es) (TimerFires 0 (9 # 10)) =
              Some (after (es ++ [TimerFires 0 (9 # 10)])) ->
            App.status (generationState (after es)) = Processing ->
            App.status
              (generationState (after (es ++ [TimerFires 0 (9 # 10)]))) =
              Processing ->
            generationProgress (after es) =
              Some (GenerationProgress.mkState Processing p
                      "Generating your cosplay image..."
                      (Some 0%nat) (Some 1%nat) (Some 2%nat)) ->
            generationProgress (after (es ++ [TimerFires 0 (9 # 10)])) =
              Some (GenerationProgress.mkState Processing q
                      "Generating your cosplay image..."
                      (Some 0%nat) (Some 1%nat) (Some 2%nat)) ->
            reachable (after es) /\
            step (after es) (TimerFires 0 (9 # 10)) =
              Some (after (es ++ [TimerFires 0 (9 # 10)])) /\
            (barColour (after es) = Some "bg-green-500" ->
             barColour (after (es ++ [TimerFires 0 (9 # 10)])) =
               Some "bg-green-500") /\
            (barColour (after es) = Some "bg-yellow-500" ->
             barColour (after (es ++ [TimerFires 0 (9 # 10)])) <>
               Some "bg-blue-500")).
  { intros es p q Hr Hs St St' G G'.
    pose proof (reachable_after es _ Hr) as R.
    split; [exact R|]. split; [exact Hs|].
    destruct (progress_colour_never_goes_back _ _ _ _ _ R Hs St St' G G')
      as [Gr Y].
    unfold barColour. rewrite G, G'. simpl in *. split.
    - intros [= E]. f_equal. exact (Gr E).
    - intros [= E] [= E']. exact (Y E E'). }
  split.
  - destruct (K six_seconds_in
                (20 + (9 # 10) * 10 + (9 # 10) * 10 + (9 # 10) * 10
                 + (9 # 10) * 10 + (9 # 10) * 10)%Q
                (20 + (9 # 10) * 10 + (9 # 10) * 10 + (9 # 10) * 10
                 + (9 # 10) * 10 + (9 # 10) * 10 + (9 # 10) * 10)%Q)
      as (R & S & _ & Y); try (vm_compute; reflexivity).
    split; [exact R|]. split; [exact S|].
    split; [vm_compute; reflexivity|]. apply Y. vm_compute; reflexivity.
  - destruct (K seven_seconds_in
                (20 + (9 # 10) * 10 + (9 # 10) * 10 + (9 # 10) * 10
                 + (9 # 10) * 10 + (9 # 10) * 10 + (9 # 10) * 10)%Q
                (20 + (9 # 10) * 10 + (9 # 10) * 10 + (9 # 10) * 10
                 + (9 # 10) * 10 + (9 # 10) * 10 + (9 # 10) * 10
                 + (9 # 10) * 10)%Q)
      as (R & S & G & _); try (vm_compute; reflexivity).
    split; [exact R|]. split; [exact S|].
    split; [vm_compute; reflexivity|]. apply G. vm_compute; reflexivity.
Defined.

(** ** CharacterSelection: what is shown after the fetch *)

(** X11: after a failed fetch whose error has a non-empty message the
    component shows only the notice "Using offline character list."
    followed by the message: the ten fallback characters are stored in
    its state but no character button is rendered, so no character can
    be chosen.  Only when the thrown error has an empty message is the
    grid of the fallback characters shown. *)
Theorem offline_notice_replaces_the_grid (r : CharacterSelection.Reply)
    (s : CharacterSelection.State) (selectedCharacter : string)
    (disabled : bool) :
  CharacterSelection.failed r = true ->
  let s' := CharacterSelection.fetchCharacters r s in
  CharacterSelection.characters s' = Some CharacterSelection.fallback /\
  (forall m, CharacterSelection.error s' = Some m -> m <> "" ->
     CharacterSelection.view s' selectedCharacter =
       CharacterSelection.OfflineNotice
         (String.append "Using offline character list. " m) /\
     CharacterSelection.selectable
       (CharacterSelection.view s' selectedCharacter) disabled = []) /\
  (CharacterSelection.error s' = Some "" ->
   CharacterSelection.selectable
     (CharacterSelection.view s' selectedCharacter) false =
     map CharacterSelection.id CharacterSelection.fallback).
Proof.
  intros F s'. subst s'. splits.
  - destruct r; try reflexivity; discriminate.
  - intros m E Ne. unfold CharacterSelection.view.
    assert (L : CharacterSelection.loading
                  (CharacterSelection.fetchCharacters r s) = false)
      by (destruct r; reflexivity).
    rewrite L, E. destruct m as [|c m]; [now elim Ne|]. simpl. auto.
  - intros E. unfold CharacterSelection.view.
    assert (L : CharacterSelection.loading
                  (CharacterSelection.fetchCharacters r s) = false)
      by (destruct r; reflexivity).
    rewrite L, E. simpl. destruct r; try reflexivity; discriminate.
Qed.

Lemma offline_notice_replaces_the_grid_witness :
  CharacterSelection.failed CharacterSelection.NotOk = true /\
  CharacterSelection.view
    (CharacterSelection.fetchCharacters CharacterSelection.NotOk
       CharacterSelection.initial) "sailor-moon" =
    CharacterSelection.OfflineNotice
      "Using offline character list. Failed to fetch characters" /\
  CharacterSelection.selectable
    (CharacterSelection.view
       (CharacterSelection.fetchCharacters CharacterSelection.NotOk
          CharacterSelection.initial) "sailor-moon") false = [].
Proof.
  split; [reflexivity|].
  destruct (offline_notice_replaces_the_grid CharacterSelection.NotOk
              CharacterSelection.initial "sailor-moon" false eq_refl)
    as (_ & A & _).
  exact (A "Failed to fetch characters" eq_refl ltac:(discriminate)).
Defined.



(** ** The tables of the views *)

(** X13: the lookup tables of the two view components cover the
    fallback list: for each of its characters ResultDisplay's
    [getCharacterName] gives the character's name, and
    CharacterSelection's [getCharacterImage] and [getStyleColor] give
    an entry of their table, not the default. *)
Theorem view_tables_cover_the_fallback_list :
  Forall
    (fun c =>
       ResultDisplay.getCharacterName (CharacterSelection.id c) =
         CharacterSelection.name c /\
       lookup (CharacterSelection.id c) CharacterSelection.images <> None /\
       CharacterSelection.getCharacterImage (CharacterSelection.id c) <> "👤" /\
       CharacterSelection.getStyleColor (CharacterSelection.style c) <>
         "bg-gray-100 text-gray-800")
    CharacterSelection.fallback /\
  map fst ResultDisplay.names =
    map CharacterSelection.id CharacterSelection.fallback /\
  map fst CharacterSelection.images =
    map CharacterSelection.id CharacterSelection.fallback.
Proof.
  split; [|split; reflexivity].
  unfold CharacterSelection.fallback.
  repeat (apply Forall_cons;
          [vm_compute; splits; try reflexivity; discriminate|]).
  apply Forall_nil.
Qed.

(** ** From the upload to the result and back *)

Lemma run_cons w e w' es : step w e = Some w' -> run w (e :: es) = run w' es.
Proof. intros E. simpl. rewrite E. reflexivity. Qed.

(** X14: a session from the first page.  For any file that passes the
    validation, any non-empty job id and any link the backend sends: the
    file is read, posted and accepted, the simulated progress and the
    status query fire once, and the reply "completed" ends the session
    with the result page for that link, beside the chosen file and the
    default character.  Exactly two calls were made to the backend, all
    timers are released, and the reset button brings the first page
    back while the preview of the file stays. *)
Theorem upload_to_result_and_back (file : PhotoUpload.File)
    (generation_id url : string) (rnd : Q) :
  PhotoUpload.validate file = None ->
  generation_id <> "" ->
  url <> "" ->
  random_ok rnd = true ->
  exists w',
    run initialWorld
      [SelectFiles [file]; ReaderLoad 0; ImageFetched 0 true;
       SubmitResponse 0 (SubmitOk generation_id);
       Elapse 1000; TimerFires 0 rnd; Elapse 1000; TimerFires 1 rnd;
       PollResponse 0 (PollData "completed" (Some url))] = Some w' /\
    generationState w' =
      App.mkGenerationState (Some generation_id) Completed 100
        (Some url) None /\
    rightColumn w' =
      [ResultPanel url (Some (PhotoUpload.dataURL file)) "sailor-moon"] /\
    requests w' =
      [PostGenerate
         (App.formData (PhotoUpload.dataURL file) "sailor-moon");
       GetGeneration generation_id] /\
    timers w' = [] /\
    generationProgress w' = None /\
    exists w'',
      step w' Reset = Some w'' /\
      generationState w'' = App.initial /\
      rightColumn w'' = [ReadyPanel] /\
      uploadedImage w'' = None /\
      PhotoUpload.preview (photoUpload w'') =
        Some (PhotoUpload.dataURL file).
Proof.
  intros V G U Rn.
  destruct generation_id as [|a gid]; [now elim G|].
  destruct url as [|b u]; [now elim U|].
  eexists. split.
  - erewrite run_cons;
      [|cbv -[PhotoUpload.validate]; rewrite V; reflexivity].
    do 4 (erewrite run_cons; [|vm_compute; reflexivity]).
    erewrite run_cons;
      [|cbv -[random_ok Qplus Qmult]; rewrite Rn; reflexivity].
    erewrite run_cons; [|cbv -[Qplus Qmult]; reflexivity].
    erewrite run_cons;
      [|cbv -[random_ok Qplus Qmult]; rewrite Rn; reflexivity].
    erewrite run_cons; [|cbv -[Qplus Qmult]; reflexivity].
    cbv -[Qplus Qmult]. reflexivity.
  - cbv -[Qplus Qmult]. splits; try reflexivity.
    eexists. split; [reflexivity|]. splits; reflexivity.
Qed.

Lemma upload_to_result_and_back_witness :
  exists w',
    run initialWorld
      [SelectFiles [jpeg5]; ReaderLoad 0; ImageFetched 0 true;
       SubmitResponse 0 (SubmitOk "abc123");
       Elapse 1000; TimerFires 0 (1 # 2); Elapse 1000;
       TimerFires 1 (1 # 2);
       PollResponse 0 (PollData "completed" (Some "/results/abc123.png"))] =
      Some w' /\
    generationState w' =
      App.mkGenerationState (Some "abc123") Completed 100
        (Some "/results/abc123.png") None /\
    timers w' = [].
Proof.
  assert (V : PhotoUpload.validate jpeg5 = None) by (vm_compute; reflexivity).
  assert (G : "abc123" <> "") by discriminate.
  assert (U : "/results/abc123.png" <> "") by discriminate.
  assert (Rn : random_ok (1 # 2) = true) by (vm_compute; reflexivity).
  destruct (upload_to_result_and_back jpeg5 "abc123" "/results/abc123.png"
              (1 # 2) V G U Rn) as (w' & R & Gs & _ & _ & Ts & _).
  exists w'. split; [exact R|]. split; [exact Gs|exact Ts].
Defined.

(** ** App.tsx: the catch branch of handleImageUpload *)

(** X15: whenever a call of [handleImageUpload] fails (reading the image
    back, the POST, its status or its body), the app goes to the error
    page with "Failed to start generation", whatever it was showing:
    the other fields of the generation state are kept, the progress
    component is taken off the page with all its timers, no call is made
    to the backend, and "Try Again" is offered.  This also holds while
    another job is being polled: its polling stops. *)
Theorem failed_start_ends_any_session w e w' :
  reachable w -> start_failure e = true -> step w e = Some w' ->
  generationState w' =
    App.handleGenerationError msg_start_failed (generationState w) /\
  rightColumn w' = [ErrorPanel "Failed to start generation"] /\
  generationProgress w' = None /\
  timers w' = [] /\
  requests w' = requests w /\
  resetOffered w' = true.
Proof.
  intros R F H.
  assert (I : inv w') by (apply reachable_inv; eapply reach_step; eauto).
  assert (G : generationState w' =
              App.handleGenerationError msg_start_failed (generationState w) /\
              requests w' = requests w).
  { destruct e as [| |n ok|n r| | | | |]; simpl in F; try discriminate.
    - destruct ok; [discriminate|]. simpl in H.
      destruct (nth_error (uploads w) n) as [[i c]|]; [|discriminate].
      injection H as <-. rewrite generationState_render, requests_render.
      split; reflexivity.
    - simpl in H. destruct (nth_error (submits w) n); [|discriminate].
      injection H as <-. rewrite generationState_render, requests_render.
      destruct r; try discriminate; split; reflexivity. }
  destruct G as [G Rq].
  assert (St : App.status (generationState w') = Error)
    by (rewrite G; reflexivity).
  assert (Nr : rendersProgress (App.status (generationState w')) = false)
    by (rewrite St; reflexivity).
  destruct (inv_not_rendered _ I Nr) as [Gp Ts].
  splits; auto.
  - unfold rightColumn. rewrite G. reflexivity.
  - unfold resetOffered. rewrite St. reflexivity.
Qed.

Lemma failed_start_ends_any_session_witness :
  App.status (generationState (after running_with_post_in_flight)) =
    Processing /\
  timers (after running_with_post_in_flight) <> [] /\
  exists w',
    step (after running_with_post_in_flight)
      (SubmitResponse 0 SubmitNotOk) = Some w' /\
    rightColumn w' = [ErrorPanel "Failed to start generation"] /\
    App.id (generationState w') = Some "abc123" /\
    timers w' = [].
Proof.
  assert (R : reachable (after running_with_post_in_flight))
    by (apply (reachable_after running_with_post_in_flight);
        vm_compute; reflexivity).
  assert (S : step (after running_with_post_in_flight)
                (SubmitResponse 0 SubmitNotOk) =
              Some (after (running_with_post_in_flight ++
                           [SubmitResponse 0 SubmitNotOk])))
    by (vm_compute; reflexivity).
  split; [vm_compute; reflexivity|].
  split; [vm_compute; discriminate|].
  eexists. split; [exact S|].
  destruct (failed_start_ends_any_session
              (after running_with_post_in_flight)
              (SubmitResponse 0 SubmitNotOk) _ R eq_refl S)
    as (G & C & _ & Ts & _).
  split; [exact C|]. split; [rewrite G; vm_compute; reflexivity|exact Ts].
Defined.
